(** * VoxFlow diarizer service: the diarization script [diarize.py]

    A shallow embedding of [src/diarizer_service/diarize.py] and the
    properties of its windowing, clustering front and segment merging.

    Modelling conventions.
    - Python exceptions are the [Raise] branch of [result].
    - Python [int] is [Z]; list lengths are [nat] and are injected in [Z]
      where the script computes with them.
    - The floats [frame_sec] and [hop_sec] are IEEE binary64 values
      ([spec_float] at precision 53, maximal exponent 1024), so that
      [int(frame_sec * sr)] is computed bit for bit.
    - Time stamps ([start / sr] and the values [round(., 3)] returns) are
      exact rationals in reduced form.  In [main] every time stamp is a
      multiple of 0.75 and therefore a binary64 value: nothing is lost there.
    - numpy's channel mean, the float32 cast, the speaker encoder and the
      clusterer are external to the script: they are fields of [Runtime]. *)

From Stdlib Require Import Strings.String Strings.Ascii.
From Stdlib Require Import Numbers.DecimalString Numbers.DecimalZ.
From Stdlib Require Import ZArith QArith Qround Qreduction List Bool Lia Lqa.
From Stdlib Require Import Sorting.Sorted.
From Stdlib Require Import Floats.SpecFloat.
Import ListNotations.

Local Open Scope Z_scope.

(* ================================================================= *)
(** ** Python runtime *)

Module Py.

Inductive exn : Type :=
| ValueError
| OverflowError
| ZeroDivisionError
| IndexError.

Inductive result (A : Type) : Type :=
| Ok (a : A)
| Raise (e : exn).

Arguments Ok {A} a.
Arguments Raise {A} e.

Definition bind {A B : Type} (r : result A) (k : A -> result B) : result B :=
  match r with
  | Ok a => k a
  | Raise e => Raise e
  end.

(** A [for] loop whose body may raise: the state is threaded through the
    items in order and the first exception leaves the loop. *)
Fixpoint for_each {I S : Type} (items : list I) (body : S -> I -> result S)
    (st : S) : result S :=
  match items with
  | [] => Ok st
  | i :: items' => bind (body st i) (for_each items' body)
  end.

(** *** Floats *)

Definition float : Type := spec_float.

Definition prec : Z := 53.
Definition emax : Z := 1024.

(** [float(n)] for a Python int. *)
Definition float_of_int (n : Z) : result float :=
  match binary_normalize prec emax n 0 false with
  | S754_infinity _ => Raise OverflowError
  | x => Ok x
  end.

(** [x * n] for a float [x] and an int [n]: the int is converted first. *)
Definition float_mul_int (x : float) (n : Z) : result float :=
  bind (float_of_int n) (fun y => Ok (SFmul prec emax x y)).

(** [int(x)]: truncation toward zero. *)
Definition py_int (x : float) : result Z :=
  match x with
  | S754_zero _ => Ok 0
  | S754_nan => Raise ValueError
  | S754_infinity _ => Raise OverflowError
  | S754_finite s m e => Ok (cond_Zopp s (Z.shiftl (Zpos m) e))
  end.

(** [round(x)]: the nearest integer, ties to even. *)
Definition py_round (x : float) : result Z :=
  match x with
  | S754_zero _ => Ok 0
  | S754_nan => Raise ValueError
  | S754_infinity _ => Raise OverflowError
  | S754_finite s m e =>
      let d := Z.shiftl 1 (- e) in
      let q := Z.shiftl (Zpos m) e in
      let r := Zpos m - Z.shiftl q (- e) in
      let n := if e <? 0
               then match 2 * r ?= d with
                    | Lt => q
                    | Gt => q + 1
                    | Eq => if Z.even q then q else q + 1
                    end
               else q in
      Ok (cond_Zopp s n)
  end.

(** The float a decimal literal [num / den] denotes: the quotient rounded
    to nearest. *)
Definition float_lit (num den : Z) : float :=
  SFdiv prec emax (binary_normalize prec emax num 0 false)
                  (binary_normalize prec emax den 0 false).

(** *** [range], indexing and slicing *)

Definition range_len (start stop step : Z) : Z :=
  if 0 <? step then
    if start <? stop then (stop - start - 1) / step + 1 else 0
  else
    if stop <? start then (start - stop - 1) / (- step) + 1 else 0.

Definition range_items (start stop step : Z) : list Z :=
  map (fun i => start + Z.of_nat i * step)
      (seq 0 (Z.to_nat (range_len start stop step))).

(** [range(start, stop, step)]: a zero step is a [ValueError]. *)
Definition py_range (start stop step : Z) : result (list Z) :=
  if step =? 0 then Raise ValueError else Ok (range_items start stop step).

(** [l[i]]. *)
Definition py_index {A : Type} (l : list A) (i : Z) : result A :=
  let n := Z.of_nat (length l) in
  let j := if i <? 0 then i + n else i in
  if (j <? 0) || (n <=? j) then Raise IndexError
  else match nth_error l (Z.to_nat j) with
       | Some a => Ok a
       | None => Raise IndexError
       end.

Definition slice_bound (n i : Z) : Z :=
  if i <? 0 then Z.max 0 (i + n) else Z.min i n.

(** [l[start:stop]]. *)
Definition py_slice {A : Type} (l : list A) (start stop : Z) : list A :=
  let n := Z.of_nat (length l) in
  let lo := slice_bound n start in
  let hi := slice_bound n stop in
  firstn (Z.to_nat (hi - lo)) (skipn (Z.to_nat lo) l).

(** *** Time stamps *)

(** [a / b] on ints, kept as the exact quotient.  Python rounds the
    quotient to binary64; the two agree wherever the quotient is a binary64
    value, which is the case of every time stamp of [main] (multiples of
    0.75).  Off such values the model holds the exact quotient. *)
Definition py_truediv (a b : Z) : result Q :=
  if b =? 0 then Raise ZeroDivisionError
  else Ok (Qred (inject_Z a / inject_Z b)).

(** Nearest integer of a rational, ties to even. *)
Definition round_half_even (q : Q) : Z :=
  let f := Qfloor q in
  match Qcompare (q - inject_Z f) (1 # 2) with
  | Lt => f
  | Gt => f + 1
  | Eq => if Z.even f then f else f + 1
  end.

(** [round(x, 3)]. *)
Definition py_round3 (x : Q) : Q :=
  Qred (round_half_even (x * inject_Z 1000) # 1000).

(** *** [str] and [==] on label values *)

Class PyValue (L : Type) : Type := {
  py_str : L -> string;
  py_eqb : L -> L -> bool
}.

#[export] Instance PyValue_int : PyValue Z := {
  py_str := fun z => NilEmpty.string_of_int (Z.to_int z);
  py_eqb := Z.eqb
}.

#[export] Instance PyValue_str : PyValue string := {
  py_str := fun s => s;
  py_eqb := String.eqb
}.

End Py.

Import Py.

Notation "x <- c1 ;; c2" := (Py.bind c1 (fun x => c2))
  (at level 61, c1 at next level, right associativity).
Notation "' pat <- c1 ;; c2" :=
  (Py.bind c1 (fun x => match x with pat => c2 end))
  (at level 61, pat pattern, c1 at next level, right associativity).

(* ================================================================= *)
(** ** The script *)

(** [int(sec * sr)], the expression behind [frame_len] and [hop_len]. *)
Definition secs_to_samples (sec : float) (sr : Z) : result Z :=
  x <- float_mul_int sec sr ;; py_int x.

(** The body of the loop of [slice_frames]: one window and its time range
    are appended. *)
Definition slice_step {A : Type} (audio : list A) (sr frame_len : Z)
    : list (list A) * list (Q * Q) -> Z
      -> result (list (list A) * list (Q * Q)) :=
  fun '(frames, times) start =>
    let end_ := start + frame_len in
    let frames := frames ++ [py_slice audio start end_] in
    t0 <- py_truediv start sr ;;
    t1 <- py_truediv end_ sr ;;
    Ok (frames, times ++ [(t0, t1)]).

(** [slice_frames(audio, sr, frame_sec, hop_sec)] *)
Definition slice_frames {A : Type} (audio : list A) (sr : Z)
    (frame_sec hop_sec : float) : result (list (list A) * list (Q * Q)) :=
  frame_len <- secs_to_samples frame_sec sr ;;
  hop_len <- secs_to_samples hop_sec sr ;;
  if Z.of_nat (length audio) <? frame_len then
    Ok ([], [])
  else
    starts <- py_range 0 (Z.of_nat (length audio) - frame_len + 1) hop_len ;;
    for_each starts (slice_step audio sr frame_len) ([], []).

(** One entry of [speakerSegments]. *)
Record segment : Type := {
  seg_start : Q;
  seg_end : Q;
  seg_label : string
}.

(** The dictionary appended by [frames_to_segments]. *)
Definition make_segment {L : Type} `{PyValue L}
    (start_ end_ : Q) (label : L) : segment :=
  {| seg_start := py_round3 start_;
     seg_end := py_round3 end_;
     seg_label := py_str label |}.

(** The variables of the loop of [frames_to_segments]: [segments],
    [cur_label], [seg_start] and [seg_end]. *)
Definition merge_state (L : Type) : Type := (list segment * L * Q * Q)%type.

(** The body of the loop of [frames_to_segments], at index [i]. *)
Definition merge_step {L : Type} `{PyValue L}
    (labels : list L) (times : list (Q * Q))
    : merge_state L -> Z -> result (merge_state L) :=
  fun '(segments, cur_label, seg_start, seg_end) i =>
    label_i <- py_index labels i ;;
    if py_eqb label_i cur_label then
      t <- py_index times i ;;
      Ok (segments, cur_label, seg_start, snd t)
    else
      let segments :=
        segments ++ [make_segment seg_start seg_end cur_label] in
      t <- py_index times i ;;
      Ok (segments, label_i, fst t, snd t).

(** The last [append] of [frames_to_segments] and its [return]. *)
Definition merge_finish {L : Type} `{PyValue L}
    : merge_state L -> result (list segment) :=
  fun '(segments, cur_label, seg_start, seg_end) =>
    Ok (segments ++ [make_segment seg_start seg_end cur_label]).

(** [frames_to_segments(labels, times)] *)
Definition frames_to_segments {L : Type} `{PyValue L}
    (labels : list L) (times : list (Q * Q)) : result (list segment) :=
  cur_label <- py_index labels 0 ;;
  t0 <- py_index times 0 ;;
  st <- for_each (range_items 1 (Z.of_nat (length labels)) 1)
          (merge_step labels times) ([], cur_label, fst t0, snd t0) ;;
  merge_finish st.

(** What the script calls from numpy, SpeechBrain and scikit-learn. *)
Class Runtime : Type := {
  sample : Type;
  (** [np.mean] of one row of a (frames, channels) array *)
  np_mean : list sample -> sample;
  (** [astype(np.float32)] on one sample *)
  astype_float32 : sample -> sample;
  embedding : Type;
  (** [classifier.encode_batch(wav).squeeze().cpu().numpy()] on one frame *)
  encode_batch : list sample -> embedding;
  (** [AgglomerativeClustering(n_clusters, metric="cosine",
      linkage="average").fit_predict(embeddings)] *)
  fit_predict : Z -> list embedding -> list Z
}.

(** What [sf.read] hands back: a one-dimensional array for a mono file, a
    (frames, channels) array otherwise. *)
Inductive ndarray (A : Type) : Type :=
| Array1 (samples : list A)
| Array2 (rows : list (list A)).

Arguments Array1 {A} samples.
Arguments Array2 {A} rows.

Definition ndim {A : Type} (a : ndarray A) : Z :=
  match a with
  | Array1 _ => 1
  | Array2 _ => 2
  end.

Section Script.

Context {R : Runtime}.

(** [load_audio_mono_16k(path)], on the decoded content of [path]. *)
Definition load_audio_mono_16k (file : ndarray sample * Z)
    : result (list sample * Z) :=
  let '(audio, sr) := file in
  let audio :=
    match audio with
    | Array1 samples => samples
    | Array2 rows => map np_mean rows
    end in
  if negb (sr =? 16000) then Raise ValueError
  else Ok (map astype_float32 audio, sr).

Definition frame_sec : float := float_lit 15 10.
Definition hop_sec : float := float_lit 75 100.

(** Lines 129-132 of [main]: the number of clusters. *)
Definition n_clusters_of (max_speakers : Z) (n : nat) : Z :=
  let n_clusters := Z.min max_speakers (Z.of_nat n) in
  if n_clusters <? 1 then 1 else n_clusters.

(** Lines 129-142 of [main]: the labels of the embeddings. *)
Definition cluster_labels (max_speakers : Z) (embeddings : list embedding)
    : list Z :=
  let n_clusters := n_clusters_of max_speakers (length embeddings) in
  if n_clusters =? 1 then repeat 0 (length embeddings)
  else fit_predict n_clusters embeddings.

(** [main()]: the value of ["speakerSegments"] in the JSON document written
    to [--out], from the decoded [--in] file and [--max_speakers]. *)
Definition main (file : ndarray sample * Z) (max_speakers : Z)
    : result (list segment) :=
  '(audio, sr) <- load_audio_mono_16k file ;;
  '(frames, times) <- slice_frames audio sr frame_sec hop_sec ;;
  if (length frames =? 0)%nat then
    Ok []
  else
    let embeddings := map encode_batch frames in
    if (length embeddings <? 2)%nat then
      Ok []
    else
      let labels := cluster_labels max_speakers embeddings in
      frames_to_segments labels times.

End Script.

(* ================================================================= *)
(** ** The clusterer *)

Module Agglomerative.

Definition fadd : float -> float -> float := SFadd prec emax.
Definition fsub : float -> float -> float := SFsub prec emax.
Definition fmul : float -> float -> float := SFmul prec emax.
Definition fdiv : float -> float -> float := SFdiv prec emax.
Definition fsqrt : float -> float := SFsqrt prec emax.
Definition fltb : float -> float -> bool := SFltb.

Definition fzero : float := S754_zero false.
Definition fone : float := binary_normalize prec emax 1 0 false.
Definition fnat (n : nat) : float :=
  binary_normalize prec emax (Z.of_nat n) 0 false.

Fixpoint dot_from (acc : float) (u v : list float) : float :=
  match u, v with
  | x :: u', y :: v' => dot_from (fadd acc (fmul x y)) u' v'
  | _, _ => acc
  end.

Definition dot : list float -> list float -> float := dot_from fzero.

(** Modelled from the spec: the cosine distance of two embeddings,
    [1 - cosine similarity] (scikit-learn's metric is not in the script). *)
Definition cosine_distance (u v : list float) : float :=
  fsub fone (fdiv (dot u v) (fmul (fsqrt (dot u u)) (fsqrt (dot v v)))).

(** Modelled from the spec: average linkage, the mean of the distances of
    all cross-cluster pairs of points.  A cluster is the list of the indices
    of its points. *)
Definition linkage (X : list (list float)) (a b : list nat) : float :=
  let d i j := cosine_distance (nth i X []) (nth j X []) in
  let total :=
    fold_left (fun acc i => fold_left (fun acc j => fadd acc (d i j)) b acc)
              a fzero in
  fdiv total (fnat (length a * length b)).

(** The pairs [(i, j)] with [i < j < n], in lexicographic order. *)
Definition pairs (n : nat) : list (nat * nat) :=
  flat_map (fun i => map (fun j => (i, j)) (seq (S i) (n - S i))) (seq 0 n).

Definition pair_linkage (X : list (list float)) (clusters : list (list nat))
    (p : nat * nat) : float :=
  linkage X (nth (fst p) clusters []) (nth (snd p) clusters []).

(** Modelled from the spec: the two clusters with the smallest linkage
    distance.  Among equal distances the first pair in lexicographic order
    of the cluster positions is taken. *)
Definition closest_pair (X : list (list float)) (clusters : list (list nat))
    : option (nat * nat) :=
  match pairs (length clusters) with
  | [] => None
  | p :: ps =>
      Some (fst (fold_left
                   (fun best q =>
                      let dq := pair_linkage X clusters q in
                      if fltb dq (snd best) then (q, dq) else best)
                   ps (p, pair_linkage X clusters p)))
  end.

(** Cluster [j] joins cluster [i] and leaves the list. *)
Definition merge_pair (clusters : list (list nat)) (p : nat * nat)
    : list (list nat) :=
  let '(i, j) := p in
  firstn i clusters
    ++ (nth i clusters [] ++ nth j clusters [])
    :: firstn (j - i - 1) (skipn (S i) clusters)
    ++ skipn (S j) clusters.

Definition merge_closest (X : list (list float)) (clusters : list (list nat))
    : list (list nat) :=
  match closest_pair X clusters with
  | Some p => merge_pair clusters p
  | None => clusters
  end.

(** Modelled from the spec: every embedding starts as its own cluster and
    the two closest clusters are merged until [k] clusters remain. *)
Definition agglomerate (k : nat) (X : list (list float)) : list (list nat) :=
  Nat.iter (length X - k) (merge_closest X)
           (map (fun i => [i]) (seq 0 (length X))).

Fixpoint label_from (idx : Z) (clusters : list (list nat)) (p : nat) : Z :=
  match clusters with
  | [] => 0
  | c :: clusters' =>
      if existsb (Nat.eqb p) c then idx else label_from (idx + 1) clusters' p
  end.

(** Modelled from the spec: the label array of length N, point [p] carrying
    the position of its cluster ([AgglomerativeClustering.fit_predict] is
    scikit-learn's and not in the script). *)
Definition fit_predict (n_clusters : Z) (X : list (list float)) : list Z :=
  let clusters := agglomerate (Z.to_nat n_clusters) X in
  map (label_from 0 clusters) (seq 0 (length X)).

End Agglomerative.

(* ================================================================= *)
(** ** A concrete runtime *)

(** Samples are rationals, the channel mean is exact, the float32 cast keeps
    the value, and the encoder reads the embedding of a frame off a table at
    the integer part of the frame's first sample. *)

Definition exact_mean (row : list Q) : Q :=
  Qred (fold_left Qplus row 0%Q / inject_Z (Z.of_nat (length row))).

Definition embedding_table : list (list float) :=
  [ [float_lit 1 1; float_lit 0 1];
    [float_lit 1 1; float_lit 1 100];
    [float_lit 0 1; float_lit 1 1];
    [float_lit 0 1; float_lit 101 100] ].

Definition table_encoder (frame : list Q) : list float :=
  match frame with
  | [] => []
  | x :: _ => nth (Z.to_nat (Qfloor x)) embedding_table []
  end.

Definition table_runtime : Runtime := {|
  sample := Q;
  np_mean := exact_mean;
  astype_float32 := fun x => x;
  embedding := list float;
  encode_batch := table_encoder;
  fit_predict := Agglomerative.fit_predict
|}.

(** [n] samples of value [v]. *)
Definition tone (v : Z) (n : Z) : list Q := repeat (inject_Z v) (Z.to_nat n).

(* ================================================================= *)
(** ** Vocabulary of the statements *)

(** The window of [frame_len] samples at offset [start], and its time
    range in seconds. *)
Definition window {A : Type} (audio : list A) (frame_len start : Z) : list A :=
  py_slice audio start (start + frame_len).

Definition time_range (sr frame_len start : Z) : Q * Q :=
  (Qred (inject_Z start / inject_Z sr),
   Qred (inject_Z (start + frame_len) / inject_Z sr)).

(** The exact value of [x] lies in [0, 1). *)
Definition float_below_one (x : float) : bool :=
  match x with
  | S754_zero _ => true
  | S754_finite false m e => Zpos m <? Z.shiftl 1 (- e)
  | _ => false
  end.

(** The Frame Sampler as section 4.1 of the specification words it: the
    lengths are rounded to the nearest sample. *)
Definition spec_frame_len (sec : float) (sr : Z) : result Z :=
  x <- float_mul_int sec sr ;; py_round x.

(** The offsets of the windows [slice_frames] emits. *)
Definition starts_of (len frame_len hop_len : Z) : list Z :=
  if len <? frame_len then []
  else range_items 0 (len - frame_len + 1) hop_len.

(** The time range of the [k]-th frame of [main]: [0.75 k .. 0.75 k + 1.5]. *)
Definition frame_time (k : nat) : Q * Q :=
  (Qred (3 * Z.of_nat k # 4), Qred (3 * Z.of_nat k + 6 # 4)).

(** The loop of [frames_to_segments] by recursion on the frames that are
    left: [cur], [s] and [e] are [cur_label], [seg_start] and [seg_end]. *)
Fixpoint merge_run {L : Type} `{PyValue L} (cur : L) (s e : Q)
    (rest : list (L * (Q * Q))) : list segment :=
  match rest with
  | [] => [make_segment s e cur]
  | (l, t) :: rest' =>
      if py_eqb l cur then merge_run cur s (snd t) rest'
      else make_segment s e cur :: merge_run l (fst t) (snd t) rest'
  end.

Definition segment_range (sg : segment) : Q * Q := (seg_start sg, seg_end sg).


(** Both ends of [t] are whole milliseconds: [round(., 3)] keeps them. *)
Definition exact_ms (t : Q * Q) : Prop :=
  py_round3 (fst t) = fst t /\ py_round3 (snd t) = snd t.





(** The number of indices [i] with [labels[i + 1] != labels[i]]. *)
Fixpoint label_changes (labels : list Z) : nat :=
  match labels with
  | a :: (b :: _) as tl =>
      ((if Z.eqb b a then 0 else 1) + label_changes tl)%nat
  | _ => 0%nat
  end.

(** [labels] with every run of equal values cut down to one value. *)
Fixpoint dedup_adjacent (labels : list Z) : list Z :=
  match labels with
  | a :: (b :: _) as tl =>
      if b =? a then dedup_adjacent tl else a :: dedup_adjacent tl
  | _ => labels
  end.

(** The number of sample frames of a decoded file. *)
Definition n_samples {A : Type} (a : ndarray A) : nat :=
  match a with
  | Array1 samples => length samples
  | Array2 rows => length rows
  end.

(* ================================================================= *)
(** ** Lemmas *)

(* ----------------------------------------------------------------- *)
(** *** [range] and the windows of [slice_frames] *)

Lemma range_items_length start stop step :
  length (range_items start stop step) = Z.to_nat (range_len start stop step).
Proof. unfold range_items. now rewrite length_map, length_seq. Qed.

Lemma range_len_fits stop step k :
  0 < step -> 0 <= k ->
  (k < range_len 0 stop step <-> k * step < stop).
Proof.
  intros Hs Hk. unfold range_len.
  destruct (Z.ltb_spec 0 step); [|lia].
  destruct (Z.ltb_spec 0 stop).
  - rewrite Z.sub_0_r.
    pose proof (Z.div_mod (stop - 1) step ltac:(lia)).
    pose proof (Z.mod_pos_bound (stop - 1) step Hs).
    split; intros; nia.
  - split; intros; nia.
Qed.

Lemma secs_to_samples_sr0 x n : secs_to_samples x 0 = Ok n -> n = 0.
Proof.
  unfold secs_to_samples, float_mul_int. cbn.
  destruct x as [s|s| |s m e]; cbn; congruence.
Qed.

Lemma slice_loop_ok {A : Type} (audio : list A) (sr frame_len : Z) starts :
  sr <> 0 -> forall frames times,
  for_each starts (slice_step audio sr frame_len) (frames, times)
  = Ok (frames ++ map (window audio frame_len) starts,
        times ++ map (time_range sr frame_len) starts).
Proof.
  intros Hsr. induction starts as [|s starts IH]; intros frames times; cbn.
  - now rewrite !app_nil_r.
  - unfold py_truediv. destruct (Z.eqb_spec sr 0) as [|_]; [contradiction|].
    cbn. rewrite IH, <- !app_assoc. reflexivity.
Qed.

Lemma slice_frames_unfold {A} (audio : list A) sr fs hs fl hl :
  secs_to_samples fs sr = Ok fl -> secs_to_samples hs sr = Ok hl ->
  slice_frames audio sr fs hs =
  if Z.of_nat (length audio) <? fl then Ok ([], [])
  else
    starts <- py_range 0 (Z.of_nat (length audio) - fl + 1) hl ;;
    for_each starts (slice_step audio sr fl) ([], []).
Proof. intros Hf Hh. unfold slice_frames. rewrite Hf, Hh. reflexivity. Qed.

Lemma slice_frames_starts {A} (audio : list A) sr fs hs fl hl :
  secs_to_samples fs sr = Ok fl -> secs_to_samples hs sr = Ok hl ->
  1 <= hl ->
  slice_frames audio sr fs hs =
  Ok (map (window audio fl) (starts_of (Z.of_nat (length audio)) fl hl),
      map (time_range sr fl) (starts_of (Z.of_nat (length audio)) fl hl)).
Proof.
  intros Hf Hh Hhl.
  assert (Hsr : sr <> 0).
  { intros ->. apply secs_to_samples_sr0 in Hh. lia. }
  rewrite (slice_frames_unfold _ _ _ _ _ _ Hf Hh). unfold starts_of.
  destruct (Z.ltb_spec (Z.of_nat (length audio)) fl); [reflexivity|].
  unfold py_range. destruct (Z.eqb_spec hl 0); [lia|]. cbn.
  now rewrite (slice_loop_ok audio sr fl _ Hsr).
Qed.

Lemma starts_of_length_fits len fl hl (k : nat) :
  1 <= hl ->
  ((k < length (starts_of len fl hl))%nat <-> Z.of_nat k * hl + fl <= len).
Proof.
  intros Hhl. unfold starts_of.
  destruct (Z.ltb_spec len fl).
  - cbn. split; [lia|]. intros. nia.
  - rewrite range_items_length.
    pose proof (range_len_fits (len - fl + 1) hl (Z.of_nat k) ltac:(lia) ltac:(lia)).
    assert (0 <= range_len 0 (len - fl + 1) hl).
    { unfold range_len. destruct (Z.ltb_spec 0 hl); [|lia].
      destruct (Z.ltb_spec 0 (len - fl + 1)); [|lia].
      apply Z.add_nonneg_nonneg; try lia; apply Z.div_pos; lia. }
    split; intros Hk.
    + assert (Z.of_nat k * hl < len - fl + 1) by (apply H0; lia). lia.
    + assert (Z.of_nat k < range_len 0 (len - fl + 1) hl) by (apply H0; lia).
      lia.
Qed.

Lemma starts_of_items len fl hl :
  starts_of len fl hl
  = map (fun k => Z.of_nat k * hl) (seq 0 (length (starts_of len fl hl))).
Proof.
  unfold starts_of. destruct (len <? fl); [reflexivity|].
  rewrite range_items_length. unfold range_items. reflexivity.
Qed.

(* ----------------------------------------------------------------- *)
(** *** The loop of [frames_to_segments] is [merge_run] *)

Lemma py_index_nth {A} (l : list A) (i : nat) a :
  nth_error l i = Some a -> py_index l (Z.of_nat i) = Ok a.
Proof.
  intros H. unfold py_index.
  assert (i < length l)%nat by (apply nth_error_Some; congruence).
  destruct (Z.ltb_spec (Z.of_nat i) 0); [lia|].
  destruct (Z.ltb_spec (Z.of_nat i) 0); [lia|].
  destruct (Z.leb_spec (Z.of_nat (length l)) (Z.of_nat i)); [lia|].
  cbn. now rewrite Nat2Z.id, H.
Qed.

Section MergeLoop.
Context {L : Type} `{PyValue L} (labels : list L) (times : list (Q * Q)).

Lemma merge_loop_run (rest : list (L * (Q * Q))) : forall j segs cur s e,
  (forall i, (i < length rest)%nat ->
             nth_error labels (S (j + i)) = option_map fst (nth_error rest i)
             /\ nth_error times (S (j + i)) = option_map snd (nth_error rest i)) ->
  Py.bind (for_each (map (fun i => 1 + Z.of_nat i * 1) (seq j (length rest)))
                    (merge_step labels times) (segs, cur, s, e))
          merge_finish
  = Ok (segs ++ merge_run cur s e rest).
Proof.
  induction rest as [|[l t] rest IH]; intros j segs cur s e Hnth.
  - reflexivity.
  - cbn [length seq map for_each].
    destruct (Hnth 0%nat ltac:(cbn; lia)) as [Hl Ht].
    rewrite Nat.add_0_r in Hl, Ht.
    change (nth_error labels (S j) = Some l) in Hl.
    change (nth_error times (S j) = Some t) in Ht.
    replace (1 + Z.of_nat j * 1) with (Z.of_nat (S j)) by lia.
    assert (Hrest : forall i, (i < length rest)%nat ->
              nth_error labels (S (S j + i)) = option_map fst (nth_error rest i)
              /\ nth_error times (S (S j + i)) = option_map snd (nth_error rest i)).
    { intros i Hi. specialize (Hnth (S i) ltac:(cbn; lia)).
      now rewrite Nat.add_succ_r in Hnth. }
    unfold merge_step at 1. rewrite (py_index_nth _ _ _ Hl).
    cbn [Py.bind merge_run].
    destruct (py_eqb l cur); rewrite (py_index_nth _ _ _ Ht); cbn [Py.bind].
    + apply IH, Hrest.
    + rewrite (IH _ _ _ _ _ Hrest), <- app_assoc. reflexivity.
Qed.
End MergeLoop.

Lemma frames_to_segments_run {L : Type} `{PyValue L}
    (l0 : L) (t0 : Q * Q) (labels : list L) (times : list (Q * Q)) :
  length labels = length times ->
  frames_to_segments (l0 :: labels) (t0 :: times)
  = Ok (merge_run l0 (fst t0) (snd t0) (combine labels times)).
Proof.
  intros Hlen. unfold frames_to_segments.
  change (py_index (l0 :: labels) 0) with (Ok l0).
  change (py_index (t0 :: times) 0) with (Ok t0). cbn [Py.bind].
  assert (Hr : range_items 1 (Z.of_nat (length (l0 :: labels))) 1
               = map (fun i => 1 + Z.of_nat i * 1)
                     (seq 0 (length (combine labels times)))).
  { unfold range_items. f_equal. f_equal.
    rewrite length_combine, <- Hlen, Nat.min_id. unfold range_len.
    cbn [length]. change (0 <? 1) with true. cbv iota.
    destruct (Z.ltb_spec 1 (Z.of_nat (S (length labels)))).
    - rewrite Z.div_1_r. lia.
    - lia. }
  rewrite Hr.
  pose proof (merge_loop_run (l0 :: labels) (t0 :: times)
                (combine labels times) 0 [] l0 (fst t0) (snd t0)) as Hrun.
  cbn [app] in Hrun. rewrite <- Hrun.
  - reflexivity.
  - intros i Hi. cbn [Nat.add nth_error].
    rewrite length_combine in Hi.
    destruct (nth_error labels i) as [l|] eqn:El;
      [|apply nth_error_None in El; lia].
    destruct (nth_error times i) as [t|] eqn:Et;
      [|apply nth_error_None in Et; lia].
    assert (nth_error (combine labels times) i = Some (l, t)) as ->.
    { clear - El Et. revert i times El Et.
      induction labels as [|a labels IH]; intros [|i] [|b times]; cbn;
        try discriminate; try congruence. apply IH. }
    split; reflexivity.
Qed.

(* ----------------------------------------------------------------- *)
(** *** Rounding to milliseconds *)

Lemma round_half_even_int (q : Q) (n : Z) :
  (q == inject_Z n)%Q -> round_half_even q = n.
Proof.
  intros Hq. unfold round_half_even.
  assert (Qfloor q = n) as -> by (rewrite (Qfloor_comp _ _ Hq); apply Qfloor_Z).
  assert ((q - inject_Z n ?= 1 # 2)%Q = Lt) as ->; [|reflexivity].
  rewrite <- Qlt_alt. lra.
Qed.

Lemma py_round3_millis (x : Q) (n : Z) :
  (x == n # 1000)%Q -> py_round3 x = Qred (n # 1000).
Proof.
  intros Hx. unfold py_round3. rewrite (round_half_even_int _ n); [reflexivity|].
  revert Hx. unfold Qeq, Qmult, inject_Z. cbn. lia.
Qed.

Lemma py_round3_idempotent (x : Q) : py_round3 (py_round3 x) = py_round3 x.
Proof.
  unfold py_round3 at 2 3. apply py_round3_millis, Qred_correct.
Qed.

(* ----------------------------------------------------------------- *)
(** *** Runs of equal labels *)

Lemma last_cons_default {A} (l : list A) (a d d' : A) :
  last (a :: l) d = last (a :: l) d'.
Proof.
  revert a. induction l as [|b l IH]; intros a; [reflexivity|].
  change (last (b :: l) d = last (b :: l) d'). apply IH.
Qed.

Section MergeRun.
Context {L : Type} `{PyValue L}.

Lemma merge_run_head rest : forall (cur : L) s e,
  exists e' tl, merge_run cur s e rest
                = {| seg_start := py_round3 s; seg_end := py_round3 e';
                     seg_label := py_str cur |} :: tl.
Proof.
  induction rest as [|[l t] rest IH]; intros cur s e; cbn.
  - now exists e, [].
  - destruct (py_eqb l cur); [apply IH|].
    now exists e, (merge_run l (fst t) (snd t) rest).
Qed.

Lemma merge_run_labels_change rest : forall (cur : L) s e,
  (forall a b : L, py_eqb a b = false -> py_str a <> py_str b) ->
  Sorted (fun a b => seg_label a <> seg_label b) (merge_run cur s e rest).
Proof.
  intros cur s e Hinj. revert cur s e.
  induction rest as [|[l t] rest IH]; intros cur s e; cbn.
  - repeat constructor.
  - destruct (py_eqb l cur) eqn:E; [apply IH|].
    constructor; [apply IH|].
    destruct (merge_run_head rest l (fst t) (snd t)) as (e' & tl & ->).
    constructor. cbn. intros Heq. now apply (Hinj l cur E).
Qed.

Lemma merge_run_rounded rest : forall (cur : L) s e,
  Forall (fun sg => exact_ms (segment_range sg)) (merge_run cur s e rest).
Proof.
  induction rest as [|[l t] rest IH]; intros cur s e; cbn.
  - repeat constructor; cbn; apply py_round3_idempotent.
  - destruct (py_eqb l cur); [apply IH|].
    constructor; [|apply IH]. split; cbn; apply py_round3_idempotent.
Qed.

Lemma merge_run_constant rest : forall (cur : L) s e,
  Forall (fun lt => py_eqb (fst lt) cur = true) rest ->
  merge_run cur s e rest
  = [make_segment s (snd (last (map snd rest) (s, e))) cur].
Proof.
  induction rest as [|[l t] rest IH]; intros cur s e Hall; [reflexivity|].
  inversion_clear Hall as [|? ? Hl Hrest]. cbn [merge_run fst] in *.
  rewrite Hl, (IH _ _ _ Hrest). do 2 f_equal.
  destruct rest as [|[l' t'] rest]; [reflexivity|].
  cbn [map]. change (last (t :: snd (l', t') :: map snd rest) (s, e))
    with (last (snd (l', t') :: map snd rest) (s, e)).
  now rewrite (last_cons_default _ _ (s, snd t) (s, e)).
Qed.

End MergeRun.

Lemma make_segment_exact (sg : segment) :
  exact_ms (segment_range sg) ->
  make_segment (seg_start sg) (seg_end sg) (seg_label sg) = sg.
Proof.
  destruct sg as [s e l]. unfold exact_ms, make_segment. cbn.
  now intros [-> ->].
Qed.

Lemma merge_run_settled (tl : list segment) : forall sg0,
  Sorted (fun a b => seg_label a <> seg_label b) (sg0 :: tl) ->
  Forall (fun sg => exact_ms (segment_range sg)) (sg0 :: tl) ->
  merge_run (seg_label sg0) (seg_start sg0) (seg_end sg0)
            (combine (map seg_label tl) (map segment_range tl))
  = sg0 :: tl.
Proof.
  induction tl as [|sg1 tl IH]; intros sg0 Hs Hx.
  - cbn. f_equal. apply make_segment_exact. now inversion Hx.
  - inversion_clear Hs as [|? ? Hs' Hhd]. inversion_clear Hhd as [|? ? Hne].
    inversion_clear Hx as [|? ? Hx0 Hx'].
    cbn [map combine merge_run segment_range fst snd].
    assert (py_eqb (seg_label sg1) (seg_label sg0) = false) as ->.
    { apply String.eqb_neq. congruence. }
    rewrite (make_segment_exact _ Hx0). f_equal. now apply IH.
Qed.

Lemma py_str_int_inj (a b : Z) : py_eqb a b = false -> py_str a <> py_str b.
Proof.
  cbn. intros Hne Heq. apply Z.eqb_neq in Hne. apply Hne.
  apply DecimalZ.to_int_inj.
  pose proof (NilEmpty.isi (Z.to_int a)) as Ha.
  pose proof (NilEmpty.isi (Z.to_int b)) as Hb.
  rewrite Heq in Ha. congruence.
Qed.

(* ----------------------------------------------------------------- *)
(** *** Time ranges of the merged runs *)



Section MergeRunTimes.
Context {L : Type} `{PyValue L}.





End MergeRunTimes.

(* ----------------------------------------------------------------- *)
(** *** The frame grid of [main] *)

Lemma frame_len_16k : secs_to_samples frame_sec 16000 = Ok 24000.
Proof. vm_compute. reflexivity. Qed.

Lemma hop_len_16k : secs_to_samples hop_sec 16000 = Ok 12000.
Proof. vm_compute. reflexivity. Qed.

Lemma time_range_frame_time (k : nat) :
  time_range 16000 24000 (Z.of_nat k * 12000) = frame_time k.
Proof.
  unfold time_range, frame_time. f_equal; apply Qred_complete;
    unfold Qeq, Qdiv, Qmult, Qinv, inject_Z; cbn -[Z.mul Z.add]; lia.
Qed.

Lemma quarters_exact (a : Z) : py_round3 (Qred (a # 4)) = Qred (a # 4).
Proof.
  rewrite (py_round3_millis _ (250 * a)).
  - apply Qred_complete. unfold Qeq. cbn -[Z.mul Z.add]. lia.
  - rewrite Qred_correct. unfold Qeq. cbn -[Z.mul Z.add]. lia.
Qed.

Lemma frame_time_exact (k : nat) : exact_ms (frame_time k).
Proof. split; apply quarters_exact. Qed.

Lemma frame_times_exact (ks : list nat) : Forall exact_ms (map frame_time ks).
Proof. apply Forall_map, Forall_forall. intros k _. apply frame_time_exact. Qed.





Lemma map_snd_combine_eq {A B} (l : list A) (l' : list B) :
  length l = length l' -> map snd (combine l l') = l'.
Proof.
  revert l'. induction l as [|a l IH]; intros [|b l']; cbn;
    try discriminate; [reflexivity|].
  intros Hlen. f_equal. apply IH. now injection Hlen.
Qed.


(* ----------------------------------------------------------------- *)
(** *** [main], stage by stage *)

Section Pipeline.
Context {R : Runtime}.

Lemma load_audio_rate file audio sr :
  load_audio_mono_16k file = Ok (audio, sr) -> sr = 16000.
Proof.
  destruct file as [a sr0]. unfold load_audio_mono_16k.
  destruct (Z.eqb_spec sr0 16000); cbn; [|discriminate].
  intros [= _ <-]. assumption.
Qed.

Lemma main_after_slicing file max_speakers audio sr frames times :
  load_audio_mono_16k file = Ok (audio, sr) ->
  slice_frames audio sr frame_sec hop_sec = Ok (frames, times) ->
  main file max_speakers
  = if (length frames <? 2)%nat then Ok []
    else frames_to_segments
           (cluster_labels max_speakers (map encode_batch frames)) times.
Proof.
  intros Hload Hslice. unfold main. rewrite Hload. cbn [Py.bind].
  rewrite Hslice. cbn [Py.bind]. rewrite length_map.
  destruct frames as [|f [|f' frames]]; reflexivity.
Qed.

Lemma main_frame_grid (audio : list sample) frames times :
  slice_frames audio 16000 frame_sec hop_sec = Ok (frames, times) ->
  times = map frame_time (seq 0 (length frames)).
Proof.
  rewrite (slice_frames_starts audio 16000 _ _ _ _ frame_len_16k hop_len_16k)
    by lia.
  intros [= <- <-]. rewrite length_map, starts_of_items, !map_map, length_map,
    length_seq.
  apply map_ext. intros k. apply time_range_frame_time.
Qed.

Lemma cluster_labels_length max_speakers embeddings :
  (forall k X, length (fit_predict k X) = length X) ->
  length (cluster_labels max_speakers embeddings) = length embeddings.
Proof.
  intros Hfit. unfold cluster_labels. destruct (_ =? 1).
  - apply repeat_length.
  - apply Hfit.
Qed.

End Pipeline.

(* ----------------------------------------------------------------- *)
(** *** The modelled clusterer keeps the label contract *)

Module AgglomerativeFacts.
Import Agglomerative.

Lemma pairs_bounds n i j : In (i, j) (pairs n) -> (i < j < n)%nat.
Proof.
  unfold pairs. rewrite in_flat_map. intros (i' & Hi & Hj).
  apply in_map_iff in Hj as (j' & [= -> ->] & Hj).
  apply in_seq in Hi. apply in_seq in Hj. lia.
Qed.

Lemma pairs_nonempty n : (2 <= n)%nat -> pairs n <> [].
Proof.
  intros Hn Hnil.
  assert (Hin : In (0, 1)%nat (pairs n)).
  { unfold pairs. apply in_flat_map. exists 0%nat. split.
    - apply in_seq. lia.
    - apply in_map, in_seq. lia. }
  rewrite Hnil in Hin. contradiction.
Qed.

Lemma fold_best_in {A} (d : A -> float) (ps : list A) : forall best,
  In (fst (fold_left (fun best q => if fltb (d q) (snd best) then (q, d q)
                                    else best) ps best))
     (fst best :: ps).
Proof.
  induction ps as [|q ps IH]; intros best; cbn [fold_left].
  - now left.
  - specialize (IH (if fltb (d q) (snd best) then (q, d q) else best)).
    destruct (fltb (d q) (snd best)); cbn [fst] in IH.
    + now right.
    + destruct IH as [IH|IH]; [now left|now right; right].
Qed.

Lemma closest_pair_bounds X clusters :
  (2 <= length clusters)%nat ->
  exists i j, closest_pair X clusters = Some (i, j)
              /\ (i < j < length clusters)%nat.
Proof.
  intros Hn. unfold closest_pair.
  pose proof (pairs_nonempty _ Hn) as Hne.
  pose proof (pairs_bounds (length clusters)) as Hb.
  destruct (pairs (length clusters)) as [|p ps]; [contradiction|].
  pose proof (fold_best_in (pair_linkage X clusters) ps
                (p, pair_linkage X clusters p)) as Hin.
  cbn [fst] in Hin.
  destruct (fst _) as [i j]. exists i, j. split; [reflexivity|].
  apply Hb, Hin.
Qed.

Lemma merge_pair_length clusters i j :
  (i < j < length clusters)%nat ->
  length (merge_pair clusters (i, j)) = (length clusters - 1)%nat.
Proof.
  intros Hij. unfold merge_pair.
  rewrite length_app. cbn [length].
  rewrite length_app, !length_firstn, !length_skipn. lia.
Qed.

Lemma merge_closest_length X clusters :
  (2 <= length clusters)%nat ->
  length (merge_closest X clusters) = (length clusters - 1)%nat.
Proof.
  intros Hn. unfold merge_closest.
  destruct (closest_pair_bounds X clusters Hn) as (i & j & -> & Hij).
  now apply merge_pair_length.
Qed.

Lemma iter_merge_length X m : forall clusters,
  (m < length clusters)%nat ->
  length (Nat.iter m (merge_closest X) clusters) = (length clusters - m)%nat.
Proof.
  induction m as [|m IH]; intros clusters Hm.
  - cbn. lia.
  - rewrite Nat.iter_succ, merge_closest_length; rewrite IH; lia.
Qed.

Lemma agglomerate_length k X :
  (1 <= k <= length X)%nat -> length (agglomerate k X) = k.
Proof.
  intros Hk. unfold agglomerate.
  rewrite iter_merge_length; rewrite length_map, length_seq; lia.
Qed.

Lemma label_from_range clusters p : forall idx,
  let l := label_from idx clusters p in
  l = 0 \/ idx <= l < idx + Z.of_nat (length clusters).
Proof.
  induction clusters as [|c clusters IH]; intros idx; cbn -[Z.of_nat].
  - now left.
  - destruct (existsb (Nat.eqb p) c); [right; lia|].
    destruct (IH (idx + 1)) as [H0|H1]; [now left|right; lia].
Qed.

Lemma fit_predict_length k X :
  length (Agglomerative.fit_predict k X) = length X.
Proof. unfold Agglomerative.fit_predict. now rewrite length_map, length_seq. Qed.

Lemma fit_predict_range k X :
  2 <= k <= Z.of_nat (length X) ->
  Forall (fun l => 0 <= l < k) (Agglomerative.fit_predict k X).
Proof.
  intros Hk. unfold Agglomerative.fit_predict.
  apply Forall_map, Forall_forall. intros p _.
  pose proof (label_from_range (agglomerate (Z.to_nat k) X) p 0) as Hr.
  rewrite agglomerate_length in Hr by lia. cbv zeta in Hr. lia.
Qed.

End AgglomerativeFacts.

(* ----------------------------------------------------------------- *)
(** *** Small facts used by the claims *)

Lemma py_int_below_one x : float_below_one x = true -> py_int x = Ok 0.
Proof.
  destruct x as [s|s| |[|] m e]; cbn [float_below_one py_int]; try discriminate;
    [reflexivity|].
  intros Hlt. apply Z.ltb_lt in Hlt. cbn [cond_Zopp]. f_equal.
  destruct (Z.le_gt_cases 0 e) as [He|He].
  - rewrite Z.shiftl_div_pow2 in Hlt by lia. rewrite Z.opp_involutive in Hlt.
    assert (1 / 2 ^ e <= 1).
    { apply Z.div_le_upper_bound; [apply Z.pow_pos_nonneg; lia|].
      pose proof (Z.pow_pos_nonneg 2 e ltac:(lia) He). lia. }
    lia.
  - rewrite Z.shiftl_mul_pow2, Z.mul_1_l in Hlt by lia.
    rewrite Z.shiftl_div_pow2 by lia. apply Z.div_small. lia.
Qed.

Lemma slice_frames_short {A} (audio : list A) sr fs hs fl hl :
  secs_to_samples fs sr = Ok fl -> secs_to_samples hs sr = Ok hl ->
  Z.of_nat (length audio) < fl ->
  slice_frames audio sr fs hs = Ok ([], []).
Proof.
  intros Hf Hh Hlt. rewrite (slice_frames_unfold _ _ _ _ _ _ Hf Hh).
  destruct (Z.ltb_spec (Z.of_nat (length audio)) fl); [reflexivity|lia].
Qed.

Lemma Forall_last_default {A} (P : A -> Prop) (l : list A) (d : A) :
  Forall P l -> P d -> P (last l d).
Proof.
  intros Hl Hd. induction Hl as [|a l Ha Hl IH]; [exact Hd|].
  destruct l; [exact Ha|exact IH].
Qed.

Lemma nodup_repeat_zero n : nodup Z.eq_dec (repeat 0 (S n)) = [0].
Proof.
  induction n as [|n IH]; [reflexivity|].
  change (repeat 0 (S (S n))) with (0 :: repeat 0 (S n)).
  cbn [nodup]. destruct (in_dec Z.eq_dec 0 (repeat 0 (S n))) as [_|Hn].
  - exact IH.
  - exfalso. apply Hn. now left.
Qed.

Lemma labels_in_range_card (k : Z) (labels : list Z) :
  0 <= k -> Forall (fun l => 0 <= l < k) labels ->
  Z.of_nat (length (nodup Z.eq_dec labels)) <= k.
Proof.
  intros Hk Hall.
  assert (Hincl : incl (nodup Z.eq_dec labels)
                       (map Z.of_nat (seq 0 (Z.to_nat k)))).
  { intros l Hl. apply nodup_In in Hl. rewrite Forall_forall in Hall.
    specialize (Hall l Hl). apply in_map_iff. exists (Z.to_nat l).
    split; [lia|apply in_seq; lia]. }
  apply NoDup_incl_length in Hincl; [|apply NoDup_nodup].
  rewrite length_map, length_seq in Hincl. lia.
Qed.

Section MainRuns.
Context {R : Runtime}.

(** What [main] returns once at least two frames were cut: the run merge of
    the labels over the frame grid. *)
Lemma main_merge_run file max_speakers audio sr frames times :
  (forall k X, length (fit_predict k X) = length X) ->
  load_audio_mono_16k file = Ok (audio, sr) ->
  slice_frames audio sr frame_sec hop_sec = Ok (frames, times) ->
  (2 <= length frames)%nat ->
  exists l0 labels,
    length labels = (length frames - 1)%nat
    /\ cluster_labels max_speakers (map encode_batch frames) = l0 :: labels
    /\ times = frame_time 0 :: map frame_time (seq 1 (length frames - 1))
    /\ main file max_speakers
       = Ok (merge_run l0 (fst (frame_time 0)) (snd (frame_time 0))
               (combine labels (map frame_time (seq 1 (length frames - 1))))).
Proof.
  intros Hfit Hload Hslice HN.
  pose proof (load_audio_rate _ _ _ Hload) as ->.
  pose proof (main_frame_grid _ _ _ Hslice) as Htimes.
  pose proof (cluster_labels_length max_speakers (map encode_batch frames) Hfit)
    as Hlen.
  rewrite length_map in Hlen.
  rewrite (main_after_slicing _ _ _ _ _ _ Hload Hslice).
  destruct (Nat.ltb_spec (length frames) 2); [lia|].
  destruct (cluster_labels max_speakers (map encode_batch frames))
    as [|l0 labels]; [cbn in Hlen; lia|].
  cbn [length] in Hlen.
  assert (Hseq : seq 0 (length frames) = 0%nat :: seq 1 (length frames - 1)).
  { destruct (length frames) as [|n]; [lia|]. cbn [seq]. do 2 f_equal. lia. }
  rewrite Hseq in Htimes. cbn [map] in Htimes.
  exists l0, labels. repeat split; [lia|exact Htimes|].
  rewrite Htimes. apply frames_to_segments_run.
  rewrite length_map, length_seq. lia.
Qed.

End MainRuns.

Lemma slice_frames_16k {A : Type} (audio : list A) (n : Z) (starts : list Z) :
  Z.of_nat (length audio) = n ->
  starts_of n 24000 12000 = starts ->
  slice_frames audio 16000 frame_sec hop_sec
  = Ok (map (window audio 24000) starts, map (time_range 16000 24000) starts).
Proof.
  intros <- <-.
  exact (slice_frames_starts audio 16000 _ _ _ _ frame_len_16k hop_len_16k
           ltac:(lia)).
Qed.

(* ================================================================= *)
(** ** The claims *)

(* ----------------------------------------------------------------- *)
(** *** C1: one frame *)

(** C1, as the script behaves: an input that yields exactly one frame (and
    so one embedding) stops at the guard "need at least 2 samples for
    clustering", and the segment list written out is empty. *)
Theorem main_single_frame_empty {R : Runtime} file max_speakers audio sr
    frames times :
  load_audio_mono_16k file = Ok (audio, sr) ->
  slice_frames audio sr frame_sec hop_sec = Ok (frames, times) ->
  length frames = 1%nat ->
  main file max_speakers = Ok [].
Proof.
  intros Hload Hslice Hone.
  rewrite (main_after_slicing _ _ _ _ _ _ Hload Hslice), Hone. reflexivity.
Qed.

Lemma main_single_frame_empty_witness :
  @main table_runtime (Array1 (tone 0 24000), 16000) 6 = Ok [].
Proof.
  apply (@main_single_frame_empty table_runtime
           (Array1 (tone 0 24000), 16000) 6
           (map (fun x => x) (tone 0 24000)) 16000
           (map (window (map (fun x => x) (tone 0 24000)) 24000) [0])
           (map (time_range 16000 24000) [0])).
  - reflexivity.
  - apply (slice_frames_16k _ 24000); vm_compute; reflexivity.
  - reflexivity.
Defined.

(** C1 as stated fails: 24000 samples at 16 kHz are exactly one frame, and
    the output is the empty list, not a list of one segment. *)
Lemma single_frame_yields_no_segment :
  let audio := tone 0 24000 in
  (exists frames times,
     slice_frames audio 16000 frame_sec hop_sec = Ok (frames, times)
     /\ length frames = 1%nat)
  /\ @main table_runtime (Array1 audio, 16000) 6 = Ok []
  /\ ~ (exists sg, @main table_runtime (Array1 audio, 16000) 6 = Ok [sg]).
Proof.
  cbv zeta.
  assert (H : @main table_runtime (Array1 (tone 0 24000), 16000) 6 = Ok [])
    by (vm_compute; reflexivity).
  split; [|split; [exact H|]].
  - do 2 eexists. split.
    + apply (slice_frames_16k _ 24000 [0]); vm_compute; reflexivity.
    + reflexivity.
  - intros [sg Hsg]. rewrite H in Hsg. discriminate.
Qed.

(* ----------------------------------------------------------------- *)
(** *** C2: the segment list invariant *)




(* ----------------------------------------------------------------- *)
(** *** C3: loading the audio *)

(** C3, as the script behaves: a sample rate other than 16000 Hz is a
    [ValueError] that aborts [main]; nothing is resampled.  At 16000 Hz the
    load succeeds for every channel count: an input with several channels is
    averaged to mono, row by row. *)
Theorem load_audio_rate_check {R : Runtime} (a : ndarray sample) (sr : Z)
    (max_speakers : Z) :
  (sr <> 16000 ->
     load_audio_mono_16k (a, sr) = Raise ValueError
     /\ main (a, sr) max_speakers = Raise ValueError)
  /\ (sr = 16000 ->
        load_audio_mono_16k (a, sr)
        = Ok (match a with
              | Array1 samples => map astype_float32 samples
              | Array2 rows =>
                  map (fun row => astype_float32 (np_mean row)) rows
              end, 16000)).
Proof.
  split.
  - intros Hsr. unfold main, load_audio_mono_16k.
    destruct (Z.eqb_spec sr 16000); [contradiction|]. now split.
  - intros ->. unfold load_audio_mono_16k. cbn.
    destruct a; [reflexivity|now rewrite map_map].
Qed.

Lemma load_audio_rate_check_witness :
  @load_audio_mono_16k table_runtime (Array1 [], 8000) = Raise ValueError
  /\ @main table_runtime (Array1 [], 8000) 6 = Raise ValueError.
Proof.
  apply (proj1 (@load_audio_rate_check table_runtime (Array1 []) 8000 6)).
  discriminate.
Defined.

(** C3 as stated fails: a two-channel input at 16000 Hz is not rejected,
    its channels are mixed. *)
Lemma stereo_input_is_mixed_down :
  ndim (Array2 [[1; 3]; [2; 2]]%Q) = 2
  /\ @load_audio_mono_16k table_runtime (Array2 [[1; 3]; [2; 2]]%Q, 16000)
     = Ok ([2; 2]%Q, 16000)
  /\ ~ (exists e, @load_audio_mono_16k table_runtime
                    (Array2 [[1; 3]; [2; 2]]%Q, 16000) = Raise e).
Proof.
  split; [reflexivity|]. split; [vm_compute; reflexivity|].
  intros [e He]. vm_compute in He. discriminate.
Qed.

(* ----------------------------------------------------------------- *)
(** *** C4: the windows of the Frame Sampler *)

(** C4, as the script behaves: with [frame_len = int(frame_sec * sr)] and
    [hop_len = int(hop_sec * sr)] (truncation, not rounding) and a hop of at
    least one sample, [slice_frames] returns, in order, the windows at the
    offsets [0, hop_len, 2 * hop_len, ...], and the [k]-th offset is among
    them exactly when its window fits in the signal. *)
Theorem slice_frames_windows {A : Type} (audio : list A) (sr : Z)
    (frame_sec hop_sec : float) (frame_len hop_len : Z) :
  secs_to_samples frame_sec sr = Ok frame_len ->
  secs_to_samples hop_sec sr = Ok hop_len ->
  1 <= hop_len ->
  exists n : nat,
    let offsets := map (fun k => Z.of_nat k * hop_len) (seq 0 n) in
    slice_frames audio sr frame_sec hop_sec
    = Ok (map (window audio frame_len) offsets,
          map (time_range sr frame_len) offsets)
    /\ forall k : nat,
         (k < n)%nat
         <-> Z.of_nat k * hop_len + frame_len <= Z.of_nat (length audio).
Proof.
  intros Hf Hh Hhop.
  exists (length (starts_of (Z.of_nat (length audio)) frame_len hop_len)).
  cbv zeta. rewrite <- starts_of_items. split.
  - now apply slice_frames_starts.
  - intros k. now apply starts_of_length_fits.
Qed.

Lemma slice_frames_windows_witness :
  exists n : nat,
    let offsets := map (fun k => Z.of_nat k * 2) (seq 0 n) in
    slice_frames [1; 2; 3; 4; 5] 2 (float_lit 15 10) (float_lit 1 1)
    = Ok (map (window [1; 2; 3; 4; 5] 3) offsets,
          map (time_range 2 3) offsets)
    /\ forall k : nat,
         (k < n)%nat
         <-> Z.of_nat k * 2 + 3 <= Z.of_nat (length [1; 2; 3; 4; 5]).
Proof.
  apply (slice_frames_windows [1; 2; 3; 4; 5] 2
           (float_lit 15 10) (float_lit 1 1) 3 2).
  - vm_compute. reflexivity.
  - vm_compute. reflexivity.
  - lia.
Defined.

(** C4 as stated fails: at 16 kHz a duration of 0.0001 s is 1.6 samples,
    which rounds to 2 but is cut to 1 by the script; and a hop of 0.00005 s
    is cut to 0 samples, on which no window is emitted at all. *)
Lemma slice_frames_truncates_lengths :
  let sec := float_lit 1 10000 in
  let audio := [1; 2; 3; 4; 5] in
  spec_frame_len sec 16000 = Ok 2
  /\ secs_to_samples sec 16000 = Ok 1
  /\ slice_frames audio 16000 sec sec
     = Ok (map (window audio 1) [0; 1; 2; 3; 4],
           map (time_range 16000 1) [0; 1; 2; 3; 4])
  /\ ~ (exists times,
          slice_frames audio 16000 sec sec
          = Ok (map (window audio 2) [0; 2], times))
  /\ slice_frames audio 16000 sec (float_lit 5 100000) = Raise ValueError.
Proof.
  cbv zeta. repeat split; try (vm_compute; reflexivity).
  intros [times Ht]. vm_compute in Ht. discriminate.
Qed.

(* ----------------------------------------------------------------- *)
(** *** C5: a signal shorter than one frame *)

(** C5: on a signal shorter than one frame, whatever the frame and hop
    durations, [slice_frames] returns no frame and raises nothing; and [main],
    whose frame is 1.5 s long, then writes the empty segment list. *)
Theorem short_signal_empty :
  (forall (A : Type) (audio : list A) (sr : Z) (fsec hsec : float)
          (frame_len hop_len : Z),
      secs_to_samples fsec sr = Ok frame_len ->
      secs_to_samples hsec sr = Ok hop_len ->
      Z.of_nat (length audio) < frame_len ->
      slice_frames audio sr fsec hsec = Ok ([], []))
  /\ (forall (R : Runtime) file max_speakers audio sr frame_len,
        load_audio_mono_16k file = Ok (audio, sr) ->
        secs_to_samples frame_sec sr = Ok frame_len ->
        Z.of_nat (length audio) < frame_len ->
        main file max_speakers = Ok []).
Proof.
  split.
  - intros A audio sr fsec hsec frame_len hop_len.
    apply slice_frames_short.
  - intros R file max_speakers audio sr frame_len Hload Hf Hlt.
    assert (Hslice : slice_frames audio sr frame_sec hop_sec = Ok ([], [])).
    { pose proof (load_audio_rate _ _ _ Hload) as ->.
      exact (slice_frames_short audio 16000 _ _ _ _ Hf hop_len_16k Hlt). }
    now rewrite (main_after_slicing _ _ _ _ _ _ Hload Hslice).
Qed.

Lemma short_signal_empty_witness :
  slice_frames [1; 2] 2 (float_lit 15 10) (float_lit 0 1) = Ok ([], [])
  /\ @main table_runtime (Array1 (tone 0 23999), 16000) 6 = Ok [].
Proof.
  split.
  - apply (proj1 short_signal_empty Z [1; 2] 2
             (float_lit 15 10) (float_lit 0 1) 3 0).
    + vm_compute. reflexivity.
    + vm_compute. reflexivity.
    + reflexivity.
  - apply (proj2 short_signal_empty table_runtime
             (Array1 (tone 0 23999), 16000) 6
             (map (fun x => x) (tone 0 23999)) 16000 24000).
    + reflexivity.
    + vm_compute. reflexivity.
    + vm_compute. reflexivity.
Defined.

(* ----------------------------------------------------------------- *)
(** *** C6: the number of clusters and of labels *)

(** C6, as the script behaves: [main] reaches the clusterer only with two
    embeddings or more (below that it writes the empty list and no label is
    assigned).  For N >= 2 embeddings and [max_speakers] K >= 1, and a
    clusterer whose labels lie in [0, n_clusters): the cluster count is
    min(K, N); when it is 1 every frame has label 0, whatever the clusterer
    is (it is not run), and exactly one value occurs; otherwise the labels
    are those of [fit_predict] run with the count min(K, N); and in both
    cases at most min(K, N) distinct values occur. *)
Theorem clusterer_count_and_labels {R : Runtime} (max_speakers : Z) :
  (forall k X, 2 <= k <= Z.of_nat (length X) ->
               Forall (fun l => 0 <= l < k) (fit_predict k X)) ->
  1 <= max_speakers ->
  (forall file audio sr frames times,
      load_audio_mono_16k file = Ok (audio, sr) ->
      slice_frames audio sr frame_sec hop_sec = Ok (frames, times) ->
      main file max_speakers
      = if (length (map encode_batch frames) <? 2)%nat then Ok []
        else frames_to_segments
               (cluster_labels max_speakers (map encode_batch frames)) times)
  /\ (forall embeddings : list embedding,
        (2 <= length embeddings)%nat ->
        let N := Z.of_nat (length embeddings) in
        let n_clusters := n_clusters_of max_speakers (length embeddings) in
        let labels := cluster_labels max_speakers embeddings in
        n_clusters = Z.min max_speakers N
        /\ (n_clusters = 1 ->
            labels = repeat 0 (length embeddings)
            /\ nodup Z.eq_dec labels = [0])
        /\ (n_clusters <> 1 ->
            labels = fit_predict (Z.min max_speakers N) embeddings)
        /\ Z.of_nat (length (nodup Z.eq_dec labels)) <= Z.min max_speakers N).
Proof.
  intros Hfit HK. split.
  - intros file audio sr frames times Hload Hslice.
    rewrite length_map.
    exact (main_after_slicing _ _ _ _ _ _ Hload Hslice).
  - intros embeddings HN N n_clusters labels.
    assert (Hn : n_clusters = Z.min max_speakers N).
    { unfold n_clusters, n_clusters_of. fold N.
      destruct (Z.ltb_spec (Z.min max_speakers N) 1); lia. }
    assert (Hone : n_clusters = 1 ->
                   labels = repeat 0 (length embeddings)
                   /\ nodup Z.eq_dec labels = [0]).
    { intros H1. unfold labels, cluster_labels. fold n_clusters. rewrite H1.
      cbn [Z.eqb Pos.eqb]. split; [reflexivity|].
      destruct (length embeddings); [lia|apply nodup_repeat_zero]. }
    assert (Hrun : n_clusters <> 1 ->
                   labels = fit_predict (Z.min max_speakers N) embeddings).
    { intros H1. unfold labels, cluster_labels. fold n_clusters.
      destruct (Z.eqb_spec n_clusters 1); [contradiction|].
      now rewrite Hn. }
    split; [exact Hn|]. split; [exact Hone|]. split; [exact Hrun|].
    destruct (Z.eq_dec n_clusters 1) as [H1|H1].
    + destruct (Hone H1) as [_ ->]. cbn. lia.
    + rewrite (Hrun H1). apply labels_in_range_card; [lia|].
      apply Hfit. lia.
Qed.

Lemma clusterer_count_and_labels_witness :
  (let N := Z.of_nat (length embedding_table) in
   let n_clusters := @n_clusters_of 2 (length embedding_table) in
   let labels := @cluster_labels table_runtime 2 embedding_table in
   n_clusters = Z.min 2 N
   /\ (n_clusters = 1 ->
       labels = repeat 0 (length embedding_table)
       /\ nodup Z.eq_dec labels = [0])
   /\ (n_clusters <> 1 ->
       labels = Agglomerative.fit_predict (Z.min 2 N) embedding_table)
   /\ Z.of_nat (length (nodup Z.eq_dec labels)) <= Z.min 2 N).
Proof.
  apply (proj2 (@clusterer_count_and_labels table_runtime 2
                  AgglomerativeFacts.fit_predict_range ltac:(lia))
               embedding_table).
  cbn [embedding_table length]. lia.
Defined.

(** C6 as stated fails at N = 1: 24000 samples are one frame and one
    embedding, [main] returns at its guard, and the output carries no label
    at all rather than the single label 0. *)
Lemma single_embedding_gets_no_label :
  let audio := tone 0 24000 in
  (exists frames times,
     slice_frames audio 16000 frame_sec hop_sec = Ok (frames, times)
     /\ length (map table_encoder frames) = 1%nat)
  /\ (forall segs,
        @main table_runtime (Array1 audio, 16000) 6 = Ok segs ->
        length (nodup string_dec (map seg_label segs)) = 0%nat)
  /\ ~ (exists segs,
          @main table_runtime (Array1 audio, 16000) 6 = Ok segs
          /\ length (nodup string_dec (map seg_label segs)) = 1%nat).
Proof.
  cbv zeta.
  assert (H : @main table_runtime (Array1 (tone 0 24000), 16000) 6 = Ok [])
    by (vm_compute; reflexivity).
  split; [|split].
  - do 2 eexists. split.
    + apply (slice_frames_16k _ 24000 [0]); vm_compute; reflexivity.
    + reflexivity.
  - intros segs Hs. rewrite H in Hs. injection Hs as <-. reflexivity.
  - intros (segs & Hs & Hone). rewrite H in Hs. injection Hs as <-.
    discriminate.
Qed.

(* ----------------------------------------------------------------- *)
(** *** C7: one speaker *)

(** C7: with [max_speakers = 1] and two frames or more, the output is one
    segment, from the start of the first frame to the end of the last. *)
Theorem main_one_speaker_single_segment {R : Runtime} file audio sr
    frames times :
  load_audio_mono_16k file = Ok (audio, sr) ->
  slice_frames audio sr frame_sec hop_sec = Ok (frames, times) ->
  (2 <= length frames)%nat ->
  main file 1
  = Ok [ {| seg_start := fst (hd (0, 0)%Q times);
            seg_end := snd (last times (0, 0)%Q);
            seg_label := "0" |} ].
Proof.
  intros Hload Hslice HN.
  pose proof (load_audio_rate _ _ _ Hload) as ->.
  pose proof (main_frame_grid _ _ _ Hslice) as Htimes.
  rewrite (main_after_slicing _ _ _ _ _ _ Hload Hslice).
  destruct (Nat.ltb_spec (length frames) 2); [lia|].
  assert (Hlabels : cluster_labels 1 (map encode_batch frames)
                    = 0 :: repeat 0 (length frames - 1)).
  { unfold cluster_labels, n_clusters_of. rewrite length_map.
    replace (Z.min 1 (Z.of_nat (length frames))) with 1 by lia.
    cbn [Z.ltb Z.eqb Z.compare Pos.compare Pos.compare_cont Pos.eqb].
    destruct (length frames) as [|n]; [lia|]. cbn [repeat]. do 2 f_equal. lia. }
  assert (Hseq : seq 0 (length frames) = 0%nat :: seq 1 (length frames - 1)).
  { destruct (length frames) as [|n]; [lia|]. cbn [seq]. do 2 f_equal. lia. }
  rewrite Hseq in Htimes. cbn [map] in Htimes. rewrite Hlabels, Htimes.
  set (rest := map frame_time (seq 1 (length frames - 1))).
  assert (Hlen' : length (repeat 0 (length frames - 1)) = length rest).
  { unfold rest. now rewrite repeat_length, length_map, length_seq. }
  rewrite (frames_to_segments_run _ _ _ _ Hlen').
  rewrite merge_run_constant.
  - rewrite (map_snd_combine_eq _ _ Hlen'). unfold make_segment.
    pose proof (frame_times_exact (seq 1 (length frames - 1))) as Hx.
    fold rest in Hx.
    destruct (frame_time_exact 0) as [Hs He].
    assert (Hlast : exact_ms (last rest (frame_time 0))).
    { apply Forall_last_default; [exact Hx|apply frame_time_exact]. }
    destruct Hlast as [_ Hle].
    cbn [hd]. rewrite Hs.
    replace (fst (frame_time 0), snd (frame_time 0)) with (frame_time 0)
      by reflexivity.
    rewrite Hle.
    destruct rest as [|t rest'] eqn:E.
    + exfalso. apply (f_equal (@length _)) in E. unfold rest in E.
      rewrite length_map, length_seq in E. cbn in E. lia.
    + change (last (frame_time 0 :: t :: rest') (0, 0)%Q)
        with (last (t :: rest') (0, 0)%Q).
      now rewrite (last_cons_default rest' t (frame_time 0) (0, 0)%Q).
  - apply Forall_forall. intros [l t] Hin. apply in_combine_l in Hin.
    apply repeat_spec in Hin. cbn [fst]. now subst l.
Qed.

Lemma main_one_speaker_single_segment_witness :
  @main table_runtime (Array1 (tone 0 36000), 16000) 1
  = Ok [ {| seg_start := fst (hd (0, 0)%Q
                              (map (time_range 16000 24000) [0; 12000]));
            seg_end := snd (last (map (time_range 16000 24000) [0; 12000])
                                 (0, 0)%Q);
            seg_label := "0" |} ].
Proof.
  apply (@main_one_speaker_single_segment table_runtime
           (Array1 (tone 0 36000), 16000)
           (map (fun x => x) (tone 0 36000)) 16000
           (map (window (map (fun x => x) (tone 0 36000)) 24000) [0; 12000])
           (map (time_range 16000 24000) [0; 12000])).
  - reflexivity.
  - apply (slice_frames_16k _ 36000); vm_compute; reflexivity.
  - cbn [map length]. lia.
Defined.

(* ----------------------------------------------------------------- *)
(** *** C8: merging twice *)

(** C8: on non-empty, index-aligned labels and time ranges the Segment
    Merger returns a segment list, and running it again on that list, each
    segment taken as one frame with its label and time range, returns the
    same list. *)
Theorem frames_to_segments_idempotent (labels : list Z)
    (times : list (Q * Q)) :
  labels <> [] -> length labels = length times ->
  exists segs,
    frames_to_segments labels times = Ok segs
    /\ frames_to_segments (map seg_label segs) (map segment_range segs)
       = Ok segs.
Proof.
  intros Hne Hlen.
  destruct labels as [|l0 labels]; [contradiction|].
  destruct times as [|t0 times]; [discriminate|].
  injection Hlen as Hlen.
  rewrite (frames_to_segments_run _ _ _ _ Hlen).
  pose proof (merge_run_labels_change (combine labels times) l0 (fst t0)
                (snd t0) py_str_int_inj) as Hs.
  pose proof (merge_run_rounded (combine labels times) l0 (fst t0) (snd t0))
    as Hx.
  destruct (merge_run_head (combine labels times) l0 (fst t0) (snd t0))
    as (e' & tl & E).
  rewrite E in *. eexists. split; [reflexivity|].
  cbn [map]. rewrite frames_to_segments_run by now rewrite !length_map.
  cbn [segment_range fst snd]. f_equal. now apply merge_run_settled.
Qed.

Lemma frames_to_segments_idempotent_witness :
  exists segs,
    frames_to_segments [0; 0; 1] [(0, 3 # 2); (3 # 4, 9 # 4); (3 # 2, 3)]%Q
    = Ok segs
    /\ frames_to_segments (map seg_label segs) (map segment_range segs)
       = Ok segs.
Proof.
  apply (frames_to_segments_idempotent [0; 0; 1]
           [(0, 3 # 2); (3 # 4, 9 # 4); (3 # 2, 3)]%Q).
  - discriminate.
  - reflexivity.
Defined.

(* ----------------------------------------------------------------- *)
(** *** C9: two speakers, four frames *)

(** C9: on the embeddings [[1,0], [1,0.01], [0,1], [0,1.01]] with
    [max_speakers = 2], agglomerating by cosine distance and average linkage
    down to two clusters groups the frames {0,1} and {2,3}; run over four
    frames with these embeddings, [main] writes two segments with distinct
    labels, the first over frames 0 and 1 and the second over frames 2 and
    3. *)
Theorem scenario_two_speakers :
  let audio := tone 0 12000 ++ tone 1 12000 ++ tone 2 12000
               ++ tone 3 12000 ++ tone 4 12000 in
  let times := [(0, 3 # 2); (3 # 4, 9 # 4); (3 # 2, 3); (9 # 4, 15 # 4)]%Q in
  Agglomerative.agglomerate 2 embedding_table = [[0; 1]; [2; 3]]%nat
  /\ @cluster_labels table_runtime 2 embedding_table = [0; 0; 1; 1]
  /\ (exists frames,
        slice_frames audio 16000 frame_sec hop_sec = Ok (frames, times)
        /\ map table_encoder frames = embedding_table)
  /\ @main table_runtime (Array1 audio, 16000) 2
     = Ok [ {| seg_start := 0; seg_end := 9 # 4; seg_label := "0" |};
            {| seg_start := 3 # 2; seg_end := 15 # 4; seg_label := "1" |} ].
Proof.
  cbv zeta. split; [|split; [|split]].
  - vm_compute. reflexivity.
  - vm_compute. reflexivity.
  - eexists. split.
    + apply (slice_frames_16k _ 60000 [0; 12000; 24000; 36000]);
        vm_compute; reflexivity.
    + vm_compute. reflexivity.
  - vm_compute. reflexivity.
Qed.

(* ----------------------------------------------------------------- *)
(** *** C10: a hop below one sample *)

(** C10: when [hop_sec * 16000] is a float in [0, 1) (as for the positive
    [hop_sec = 0.00005]) the hop length [int(hop_sec * sr)] is 0, and on
    every signal at least one frame long [range] is given a zero step:
    [slice_frames] raises [ValueError] and returns no frames. *)
Theorem slice_frames_zero_hop_raises {A : Type} (audio : list A)
    (frame_sec hop_sec : float) (frame_len : Z) (prod : float) :
  float_mul_int hop_sec 16000 = Ok prod ->
  float_below_one prod = true ->
  secs_to_samples frame_sec 16000 = Ok frame_len ->
  frame_len <= Z.of_nat (length audio) ->
  secs_to_samples hop_sec 16000 = Ok 0
  /\ slice_frames audio 16000 frame_sec hop_sec = Raise ValueError.
Proof.
  intros Hprod Hsmall Hf Hlen.
  assert (Hh : secs_to_samples hop_sec 16000 = Ok 0).
  { unfold secs_to_samples. rewrite Hprod. cbn [Py.bind].
    now apply py_int_below_one. }
  split; [exact Hh|].
  rewrite (slice_frames_unfold _ _ _ _ _ _ Hf Hh).
  destruct (Z.ltb_spec (Z.of_nat (length audio)) frame_len); [lia|].
  reflexivity.
Qed.

Lemma slice_frames_zero_hop_raises_witness :
  SFltb (S754_zero false) (float_lit 5 100000) = true
  /\ secs_to_samples (float_lit 5 100000) 16000 = Ok 0
  /\ slice_frames (tone 0 24000) 16000 frame_sec (float_lit 5 100000)
     = Raise ValueError.
Proof.
  split; [vm_compute; reflexivity|].
  eapply (slice_frames_zero_hop_raises (tone 0 24000) frame_sec
            (float_lit 5 100000) 24000).
  - vm_compute. reflexivity.
  - vm_compute. reflexivity.
  - vm_compute. reflexivity.
  - vm_compute. discriminate.
Defined.

(* ================================================================= *)
(** ** Further properties of the script *)

(* ----------------------------------------------------------------- *)
(** *** [slice_frames] *)

Lemma secs_to_samples_raises sec sr e :
  secs_to_samples sec sr = Raise e -> e = ValueError \/ e = OverflowError.
Proof.
  unfold secs_to_samples, float_mul_int, float_of_int.
  destruct (binary_normalize prec emax sr 0 false) as [s|s| |s m x];
    cbn [Py.bind].
  - destruct (SFmul prec emax sec (S754_zero s)); cbn; intros [= <-]; auto.
  - intros [= <-]; auto.
  - destruct (SFmul prec emax sec S754_nan); cbn; intros [= <-]; auto.
  - destruct (SFmul prec emax sec (S754_finite s m x)); cbn; intros [= <-];
      auto.
Qed.

Lemma slice_frames_inv {A : Type} (audio : list A) sr fs hs frames times :
  slice_frames audio sr fs hs = Ok (frames, times) ->
  exists fl hl starts,
    secs_to_samples fs sr = Ok fl /\ secs_to_samples hs sr = Ok hl
    /\ frames = map (window audio fl) starts
    /\ times = map (time_range sr fl) starts
    /\ starts = (if Z.of_nat (length audio) <? fl then []
                 else range_items 0 (Z.of_nat (length audio) - fl + 1) hl)
    /\ (fl <= Z.of_nat (length audio) -> hl <> 0).
Proof.
  intros Hs.
  destruct (secs_to_samples fs sr) as [fl|e] eqn:Hf;
    [|unfold slice_frames in Hs; rewrite Hf in Hs; discriminate].
  destruct (secs_to_samples hs sr) as [hl|e] eqn:Hh;
    [|unfold slice_frames in Hs; rewrite Hf, Hh in Hs; discriminate].
  rewrite (slice_frames_unfold _ _ _ _ _ _ Hf Hh) in Hs.
  exists fl, hl. destruct (Z.ltb_spec (Z.of_nat (length audio)) fl).
  - injection Hs as <- <-. exists []. repeat split; try reflexivity. lia.
  - unfold py_range in Hs. destruct (Z.eqb_spec hl 0); [discriminate|].
    cbn [Py.bind] in Hs.
    assert (Hsr : sr <> 0).
    { intros ->. apply secs_to_samples_sr0 in Hh. contradiction. }
    rewrite (slice_loop_ok audio sr fl _ Hsr) in Hs. injection Hs as <- <-.
    eexists. repeat split; try reflexivity. intros _. assumption.
Qed.

(** X1: whenever [slice_frames] returns, it returns as many time ranges as
    frames: the two lists are index-aligned. *)
Theorem slice_frames_aligned {A : Type} (audio : list A) sr fs hs
    frames times :
  slice_frames audio sr fs hs = Ok (frames, times) ->
  length frames = length times.
Proof.
  intros Hs. destruct (slice_frames_inv _ _ _ _ _ _ Hs)
    as (fl & hl & starts & _ & _ & -> & -> & _).
  now rewrite !length_map.
Qed.

Lemma slice_frames_aligned_witness :
  length [[1; 2; 3]; [3; 4; 5]] = length [(0, 3 # 2); (1, 5 # 2)]%Q.
Proof.
  apply (slice_frames_aligned [1; 2; 3; 4; 5] 2
           (float_lit 15 10) (float_lit 1 1)).
  vm_compute. reflexivity.
Defined.

(** X2: the only exceptions [slice_frames] raises are [ValueError] and
    [OverflowError]; the division [start / sr] never fails, because a zero
    sample rate makes the hop zero and [range] fails first. *)
Theorem slice_frames_raises_only {A : Type} (audio : list A) sr fs hs e :
  slice_frames audio sr fs hs = Raise e ->
  e = ValueError \/ e = OverflowError.
Proof.
  intros Hs.
  destruct (secs_to_samples fs sr) as [fl|e'] eqn:Hf.
  2:{ unfold slice_frames in Hs. rewrite Hf in Hs. injection Hs as <-.
      exact (secs_to_samples_raises _ _ _ Hf). }
  destruct (secs_to_samples hs sr) as [hl|e'] eqn:Hh.
  2:{ unfold slice_frames in Hs. rewrite Hf, Hh in Hs. injection Hs as <-.
      exact (secs_to_samples_raises _ _ _ Hh). }
  rewrite (slice_frames_unfold _ _ _ _ _ _ Hf Hh) in Hs.
  destruct (Z.ltb_spec (Z.of_nat (length audio)) fl); [discriminate|].
  unfold py_range in Hs. destruct (Z.eqb_spec hl 0).
  - injection Hs as <-. now left.
  - cbn [Py.bind] in Hs.
    assert (Hsr : sr <> 0).
    { intros ->. apply secs_to_samples_sr0 in Hh. contradiction. }
    rewrite (slice_loop_ok audio sr fl _ Hsr) in Hs. discriminate.
Qed.

Lemma slice_frames_raises_only_witness :
  ValueError = ValueError \/ ValueError = OverflowError.
Proof.
  apply (slice_frames_raises_only [1; 2; 3] 16000
           (float_lit 1 10000) (float_lit 5 100000)).
  vm_compute. reflexivity.
Defined.

Lemma window_fits {A : Type} (audio : list A) fl s :
  0 <= s -> 0 <= fl -> s + fl <= Z.of_nat (length audio) ->
  window audio fl s = firstn (Z.to_nat fl) (skipn (Z.to_nat s) audio)
  /\ Z.of_nat (length (window audio fl s)) = fl.
Proof.
  intros Hs Hfl Hfit. unfold window, py_slice, slice_bound.
  destruct (Z.ltb_spec s 0); [lia|].
  destruct (Z.ltb_spec (s + fl) 0); [lia|].
  rewrite !Z.min_l by lia.
  replace (s + fl - s) with fl by lia. split; [reflexivity|].
  rewrite length_firstn, length_skipn. lia.
Qed.

Lemma starts_of_nth len fl hl (k : nat) s :
  1 <= hl ->
  nth_error (starts_of len fl hl) k = Some s ->
  s = Z.of_nat k * hl /\ Z.of_nat k * hl + fl <= len.
Proof.
  intros Hhl Hnth.
  assert (Hk : (k < length (starts_of len fl hl))%nat)
    by (apply nth_error_Some; congruence).
  split; [|now apply starts_of_length_fits].
  rewrite starts_of_items in Hnth.
  rewrite nth_error_map, nth_error_seq in Hnth.
  destruct (Nat.ltb_spec k (length (starts_of len fl hl))); [|lia].
  cbn in Hnth. congruence.
Qed.

(** X3: with a frame length of at least 0 and a hop of at least 1, the
    [k]-th frame is the run of exactly [frame_len] samples of the signal that
    starts at sample [k * hop_len]. *)
Theorem slice_frames_fixed_length {A : Type} (audio : list A) sr fs hs
    fl hl frames times :
  secs_to_samples fs sr = Ok fl -> secs_to_samples hs sr = Ok hl ->
  0 <= fl -> 1 <= hl ->
  slice_frames audio sr fs hs = Ok (frames, times) ->
  forall (k : nat) (f : list A),
    nth_error frames k = Some f ->
    f = firstn (Z.to_nat fl) (skipn (Z.to_nat (Z.of_nat k * hl)) audio)
    /\ Z.of_nat (length f) = fl.
Proof.
  intros Hf Hh Hfl Hhl Hs k f Hnth.
  rewrite (slice_frames_starts _ _ _ _ _ _ Hf Hh Hhl) in Hs.
  injection Hs as <- _. rewrite nth_error_map in Hnth.
  destruct (nth_error (starts_of _ fl hl) k) as [s|] eqn:Es; [|discriminate].
  injection Hnth as <-.
  destruct (starts_of_nth _ _ _ _ _ Hhl Es) as [-> Hfit].
  apply window_fits; lia.
Qed.

Lemma slice_frames_fixed_length_witness :
  [3; 4; 5] = firstn (Z.to_nat 3)
                     (skipn (Z.to_nat (Z.of_nat 1 * 2)) [1; 2; 3; 4; 5])
  /\ Z.of_nat (length [3; 4; 5]) = 3.
Proof.
  apply (slice_frames_fixed_length [1; 2; 3; 4; 5] 2
           (float_lit 15 10) (float_lit 1 1) 3 2
           [[1; 2; 3]; [3; 4; 5]] [(0, 3 # 2); (1, 5 # 2)]%Q).
  - vm_compute. reflexivity.
  - vm_compute. reflexivity.
  - lia.
  - lia.
  - vm_compute. reflexivity.
  - reflexivity.
Defined.

(** X4: on a signal at least one frame long, with a hop of at least 1, the
    number of frames is [(len - frame_len) // hop_len + 1], and fewer than
    [hop_len] samples are left after the end of the last frame. *)
Theorem slice_frames_count {A : Type} (audio : list A) sr fs hs
    fl hl frames times :
  secs_to_samples fs sr = Ok fl -> secs_to_samples hs sr = Ok hl ->
  1 <= hl -> fl <= Z.of_nat (length audio) ->
  slice_frames audio sr fs hs = Ok (frames, times) ->
  let n := Z.of_nat (length frames) in
  n = (Z.of_nat (length audio) - fl) / hl + 1
  /\ Z.of_nat (length audio) - hl < (n - 1) * hl + fl <= Z.of_nat (length audio).
Proof.
  intros Hf Hh Hhl Hlen Hs n.
  rewrite (slice_frames_starts _ _ _ _ _ _ Hf Hh Hhl) in Hs.
  injection Hs as <- _. unfold n. rewrite length_map.
  set (len := Z.of_nat (length audio)) in *.
  set (m := length (starts_of len fl hl)).
  pose proof (starts_of_length_fits len fl hl m Hhl) as Hm. fold m in Hm.
  assert (Hpos : (0 < m)%nat).
  { apply (starts_of_length_fits len fl hl 0 Hhl). lia. }
  pose proof (starts_of_length_fits len fl hl (m - 1) Hhl) as Hm1.
  fold m in Hm1.
  assert (H1 : Z.of_nat (m - 1) * hl + fl <= len) by (apply Hm1; lia).
  assert (H2 : ~ Z.of_nat m * hl + fl <= len) by (intros H; apply Hm in H; lia).
  replace (Z.of_nat (m - 1)) with (Z.of_nat m - 1) in H1 by lia.
  split; [|lia].
  assert (Z.of_nat m - 1 = (len - fl) / hl); [|lia].
  apply (Z.div_unique_pos _ _ _ (len - fl - (Z.of_nat m - 1) * hl)); lia.
Qed.

Lemma slice_frames_count_witness :
  let n := Z.of_nat (length [[1; 2; 3]; [3; 4; 5]; [5; 6; 7]]) in
  n = (Z.of_nat (length [1; 2; 3; 4; 5; 6; 7; 8]) - 3) / 2 + 1
  /\ Z.of_nat (length [1; 2; 3; 4; 5; 6; 7; 8]) - 2
     < (n - 1) * 2 + 3 <= Z.of_nat (length [1; 2; 3; 4; 5; 6; 7; 8]).
Proof.
  apply (slice_frames_count [1; 2; 3; 4; 5; 6; 7; 8] 2
           (float_lit 15 10) (float_lit 1 1) 3 2
           [[1; 2; 3]; [3; 4; 5]; [5; 6; 7]]
           [(0, 3 # 2); (1, 5 # 2); (2, 7 # 2)]%Q).
  - vm_compute. reflexivity.
  - vm_compute. reflexivity.
  - lia.
  - cbn [length]. lia.
  - vm_compute. reflexivity.
Defined.

(** X5: a negative hop length raises nothing: [range] is empty and
    [slice_frames] returns no frame, however long the signal is. *)
Theorem slice_frames_negative_hop {A : Type} (audio : list A) sr fs hs fl hl :
  secs_to_samples fs sr = Ok fl -> secs_to_samples hs sr = Ok hl ->
  hl < 0 ->
  slice_frames audio sr fs hs = Ok ([], []).
Proof.
  intros Hf Hh Hneg. rewrite (slice_frames_unfold _ _ _ _ _ _ Hf Hh).
  destruct (Z.ltb_spec (Z.of_nat (length audio)) fl); [reflexivity|].
  unfold py_range. destruct (Z.eqb_spec hl 0); [lia|]. cbn [Py.bind].
  unfold range_items, range_len.
  destruct (Z.ltb_spec 0 hl); [lia|].
  destruct (Z.ltb_spec (Z.of_nat (length audio) - fl + 1) 0); [lia|].
  reflexivity.
Qed.

Lemma slice_frames_negative_hop_witness :
  slice_frames [1; 2; 3; 4; 5] 2 (float_lit 15 10) (float_lit (-1) 1)
  = Ok ([], []).
Proof.
  apply (slice_frames_negative_hop [1; 2; 3; 4; 5] 2
           (float_lit 15 10) (float_lit (-1) 1) 3 (-2)).
  - vm_compute. reflexivity.
  - vm_compute. reflexivity.
  - lia.
Defined.

(* ----------------------------------------------------------------- *)
(** *** [frames_to_segments] *)

Lemma py_index_out {A} (l : list A) (i : nat) :
  (length l <= i)%nat -> py_index l (Z.of_nat i) = Raise IndexError.
Proof.
  intros Hi. unfold py_index.
  destruct (Z.ltb_spec (Z.of_nat i) 0); [lia|].
  destruct (Z.ltb_spec (Z.of_nat i) 0); [lia|].
  destruct (Z.leb_spec (Z.of_nat (length l)) (Z.of_nat i)); [reflexivity|lia].
Qed.

Lemma merge_loop_short {L : Type} `{PyValue L}
    (labels : list L) (times : list (Q * Q)) (n : nat) : forall j st,
  (0 < n)%nat -> (S (j + n) <= length labels)%nat ->
  (length times < S (j + n))%nat ->
  for_each (map (fun i => 1 + Z.of_nat i * 1) (seq j n))
           (merge_step labels times) st
  = Raise IndexError.
Proof.
  induction n as [|n IH]; intros j [[[segs cur] s] e] Hn Hlab Htim; [lia|].
  cbn [seq map for_each].
  replace (1 + Z.of_nat j * 1) with (Z.of_nat (S j)) by lia.
  destruct (nth_error labels (S j)) as [l|] eqn:El;
    [|apply nth_error_None in El; lia].
  unfold merge_step at 1. rewrite (py_index_nth _ _ _ El). cbn [Py.bind].
  destruct (nth_error times (S j)) as [t|] eqn:Et.
  - assert (S j < length times)%nat by (apply nth_error_Some; congruence).
    rewrite (py_index_nth _ _ _ Et).
    destruct (py_eqb l cur); cbn [Py.bind]; apply IH; lia.
  - apply nth_error_None in Et. rewrite (py_index_out _ _ Et).
    destruct (py_eqb l cur); reflexivity.
Qed.

Lemma range_items_from_one (n : nat) :
  range_items 1 (Z.of_nat (S n)) 1
  = map (fun i => 1 + Z.of_nat i * 1) (seq 0 n).
Proof.
  unfold range_items. do 2 f_equal. unfold range_len.
  change (0 <? 1) with true. cbv iota.
  destruct (Z.ltb_spec 1 (Z.of_nat (S n))).
  - rewrite Z.div_1_r. lia.
  - lia.
Qed.

Lemma frames_to_segments_too_short {L : Type} `{PyValue L}
    (labels : list L) (times : list (Q * Q)) :
  labels = [] \/ (length times < length labels)%nat ->
  frames_to_segments labels times = Raise IndexError.
Proof.
  intros [->|Hlt]; [reflexivity|].
  destruct labels as [|l0 labels]; [reflexivity|].
  destruct times as [|t0 times]; [reflexivity|].
  cbn [length] in Hlt. unfold frames_to_segments.
  change (py_index (l0 :: labels) 0) with (Ok l0).
  change (py_index (t0 :: times) 0) with (Ok t0). cbn [Py.bind].
  change (length (l0 :: labels)) with (S (length labels)).
  rewrite range_items_from_one, merge_loop_short; cbn [length]; try lia.
  reflexivity.
Qed.

Lemma nth_error_combine {A B} (l : list A) (l' : list B) i a b :
  nth_error l i = Some a -> nth_error l' i = Some b ->
  nth_error (combine l l') i = Some (a, b).
Proof.
  revert i l'. induction l as [|x l IH]; intros [|i] [|y l']; cbn;
    try discriminate; try congruence. apply IH.
Qed.

Lemma frames_to_segments_run_le {L : Type} `{PyValue L}
    (l0 : L) (t0 : Q * Q) (labels : list L) (times : list (Q * Q)) :
  (length labels <= length times)%nat ->
  frames_to_segments (l0 :: labels) (t0 :: times)
  = Ok (merge_run l0 (fst t0) (snd t0) (combine labels times)).
Proof.
  intros Hlen. unfold frames_to_segments.
  change (py_index (l0 :: labels) 0) with (Ok l0).
  change (py_index (t0 :: times) 0) with (Ok t0). cbn [Py.bind].
  change (length (l0 :: labels)) with (S (length labels)).
  rewrite range_items_from_one.
  assert (Hc : length (combine labels times) = length labels)
    by (rewrite length_combine; lia).
  rewrite <- Hc.
  pose proof (merge_loop_run (l0 :: labels) (t0 :: times)
                (combine labels times) 0 [] l0 (fst t0) (snd t0)) as Hrun.
  cbn [app] in Hrun. apply Hrun.
  intros i Hi. cbn [Nat.add nth_error]. rewrite Hc in Hi.
  destruct (nth_error labels i) as [l|] eqn:El;
    [|apply nth_error_None in El; lia].
  destruct (nth_error times i) as [t|] eqn:Et;
    [|apply nth_error_None in Et; lia].
  rewrite (nth_error_combine _ _ _ _ _ El Et). split; reflexivity.
Qed.

(** X7: [frames_to_segments] fails exactly on an empty label array and when
    there are fewer time ranges than labels, and the exception is then an
    [IndexError]. *)
Theorem frames_to_segments_index_error {L : Type} `{PyValue L}
    (labels : list L) (times : list (Q * Q)) :
  (forall e, frames_to_segments labels times = Raise e -> e = IndexError)
  /\ ((exists e, frames_to_segments labels times = Raise e)
      <-> labels = [] \/ (length times < length labels)%nat).
Proof.
  destruct labels as [|l0 labels'].
  { rewrite frames_to_segments_too_short by (now left).
    split; [congruence|]. split; [now left|now exists IndexError]. }
  destruct (Nat.le_gt_cases (length (l0 :: labels')) (length times))
    as [Hle|Hgt].
  - destruct times as [|t0 times']; [cbn in Hle; lia|].
    cbn [length] in Hle. apply le_S_n in Hle.
    rewrite (frames_to_segments_run_le _ _ _ _ Hle).
    split; [discriminate|]. split; [intros [e He]; discriminate|].
    intros [Hnil|Hlt]; [discriminate|cbn [length] in Hlt; lia].
  - rewrite frames_to_segments_too_short by (now right).
    split; [congruence|]. split; [now right|now exists IndexError].
Qed.

Lemma frames_to_segments_index_error_witness :
  exists e, frames_to_segments [0; 1] [(0, 3 # 2)%Q] = Raise e.
Proof.
  apply (proj2 (frames_to_segments_index_error [0; 1] [(0, 3 # 2)%Q])).
  right. cbn [length]. lia.
Defined.

Lemma combine_firstn_r {A B} (l : list A) (l' : list B) :
  combine l (firstn (length l) l') = combine l l'.
Proof.
  revert l'. induction l as [|a l IH]; intros [|b l']; cbn; try reflexivity.
  now rewrite IH.
Qed.

(** X8: with at least one label and at least as many time ranges as labels,
    [frames_to_segments] returns, and the time ranges beyond the last label
    are not read: cutting them off gives the same segments. *)
Theorem frames_to_segments_ignores_extra_times {L : Type} `{PyValue L}
    (labels : list L) (times : list (Q * Q)) :
  labels <> [] -> (length labels <= length times)%nat ->
  exists segs,
    frames_to_segments labels times = Ok segs
    /\ frames_to_segments labels (firstn (length labels) times) = Ok segs.
Proof.
  intros Hne Hlen. destruct labels as [|l0 labels]; [contradiction|].
  destruct times as [|t0 times]; [cbn in Hlen; lia|].
  cbn [length] in Hlen. cbn [length firstn].
  rewrite !frames_to_segments_run_le;
    [|rewrite length_firstn; lia|lia].
  rewrite combine_firstn_r. eexists. split; reflexivity.
Qed.

Lemma frames_to_segments_ignores_extra_times_witness :
  exists segs,
    frames_to_segments [0; 1] [(0, 3 # 2); (3 # 4, 9 # 4); (3 # 2, 3)]%Q
    = Ok segs
    /\ frames_to_segments [0; 1]
         (firstn (length [0; 1]) [(0, 3 # 2); (3 # 4, 9 # 4); (3 # 2, 3)]%Q)
       = Ok segs.
Proof.
  apply (frames_to_segments_ignores_extra_times [0; 1]
           [(0, 3 # 2); (3 # 4, 9 # 4); (3 # 2, 3)]%Q).
  - discriminate.
  - cbn [length]. lia.
Defined.

Lemma label_changes_same (a : Z) (tl : list Z) :
  label_changes (a :: a :: tl) = label_changes (a :: tl).
Proof. cbn [label_changes]. now rewrite Z.eqb_refl. Qed.

Lemma merge_run_length rest : forall (cur : Z) s e,
  length (merge_run cur s e rest) = S (label_changes (cur :: map fst rest)).
Proof.
  induction rest as [|[l t] rest IH]; intros cur s e; [reflexivity|].
  cbn [merge_run map fst py_eqb PyValue_int].
  destruct (Z.eqb_spec l cur) as [->|Hne].
  - rewrite IH. now rewrite label_changes_same.
  - cbn [length]. rewrite IH. cbn [label_changes].
    destruct (Z.eqb_spec l cur); [contradiction|]. reflexivity.
Qed.

Lemma label_changes_bound (labels : list Z) :
  (label_changes labels <= length labels - 1)%nat.
Proof.
  induction labels as [|a [|b tl] IH]; cbn [label_changes length] in *;
    try lia.
  destruct (b =? a); lia.
Qed.

Lemma map_fst_combine_eq {A B} (l : list A) (l' : list B) :
  length l = length l' -> map fst (combine l l') = l.
Proof.
  revert l'. induction l as [|a l IH]; intros [|b l']; cbn;
    try discriminate; [reflexivity|].
  intros Hlen. f_equal. apply IH. now injection Hlen.
Qed.

Lemma map_fst_combine_le {A B} (l : list A) (l' : list B) :
  (length l <= length l')%nat -> map fst (combine l l') = l.
Proof.
  revert l'. induction l as [|a l IH]; intros [|b l'] Hlen; cbn in *;
    try reflexivity; try lia.
  f_equal. apply IH. lia.
Qed.

Lemma frames_to_segments_ok_inv {L : Type} `{PyValue L}
    (labels : list L) (times : list (Q * Q)) (segs : list segment) :
  frames_to_segments labels times = Ok segs ->
  exists l0 labels' t0 times',
    labels = l0 :: labels' /\ times = t0 :: times'
    /\ (length labels' <= length times')%nat
    /\ segs = merge_run l0 (fst t0) (snd t0) (combine labels' times').
Proof.
  intros Hs.
  destruct (Nat.le_gt_cases (length labels) (length times)) as [Hle|Hgt].
  - destruct labels as [|l0 labels'];
      [rewrite frames_to_segments_too_short in Hs by (now left);
       discriminate|].
    destruct times as [|t0 times']; [cbn in Hle; lia|].
    cbn [length] in Hle. apply le_S_n in Hle.
    rewrite (frames_to_segments_run_le _ _ _ _ Hle) in Hs. injection Hs as <-.
    now exists l0, labels', t0, times'.
  - rewrite frames_to_segments_too_short in Hs by (now right).
    discriminate.
Qed.

(** X9: the number of segments is one more than the number of places where
    two consecutive labels differ; it is at least 1 and at most the number of
    labels. *)
Theorem frames_to_segments_count (labels : list Z) (times : list (Q * Q))
    (segs : list segment) :
  frames_to_segments labels times = Ok segs ->
  length segs = S (label_changes labels)
  /\ (1 <= length segs <= length labels)%nat.
Proof.
  intros Hs. destruct (frames_to_segments_ok_inv _ _ _ Hs)
    as (l0 & labels' & t0 & times' & -> & -> & Hle & ->).
  rewrite merge_run_length, (map_fst_combine_le _ _ Hle).
  split; [reflexivity|].
  pose proof (label_changes_bound (l0 :: labels')). cbn [length] in *. lia.
Qed.

Lemma frames_to_segments_count_witness :
  let segs :=
    [ {| seg_start := 0; seg_end := 9 # 4; seg_label := "0" |};
      {| seg_start := 3 # 2; seg_end := 3; seg_label := "1" |} ] in
  length segs = S (label_changes [0; 0; 1])
  /\ (1 <= length segs <= length [0; 0; 1])%nat.
Proof.
  apply (frames_to_segments_count [0; 0; 1] [(0, 3 # 2); (3 # 4, 9 # 4); (3 # 2, 3)]%Q).
  vm_compute. reflexivity.
Defined.

Lemma dedup_adjacent_same (a : Z) (tl : list Z) :
  dedup_adjacent (a :: a :: tl) = dedup_adjacent (a :: tl).
Proof. cbn [dedup_adjacent]. now rewrite Z.eqb_refl. Qed.

Lemma merge_run_labels rest : forall (cur : Z) s e,
  map seg_label (merge_run cur s e rest)
  = map py_str (dedup_adjacent (cur :: map fst rest)).
Proof.
  induction rest as [|[l t] rest IH]; intros cur s e; [reflexivity|].
  cbn [merge_run map fst py_eqb PyValue_int].
  destruct (Z.eqb_spec l cur) as [->|Hne].
  - rewrite IH. now rewrite dedup_adjacent_same.
  - cbn [map]. rewrite IH. cbn [dedup_adjacent].
    destruct (Z.eqb_spec l cur); [contradiction|]. reflexivity.
Qed.

(** X10: the labels of the segments, in order, are the [str] of the labels
    with every run of equal values cut down to one; two consecutive
    segments never carry the same label. *)
Theorem frames_to_segments_labels (labels : list Z) (times : list (Q * Q))
    (segs : list segment) :
  frames_to_segments labels times = Ok segs ->
  map seg_label segs = map py_str (dedup_adjacent labels)
  /\ Sorted (fun a b => seg_label a <> seg_label b) segs.
Proof.
  intros Hs. destruct (frames_to_segments_ok_inv _ _ _ Hs)
    as (l0 & labels' & t0 & times' & -> & -> & Hle & ->). split.
  - now rewrite merge_run_labels, (map_fst_combine_le _ _ Hle).
  - apply merge_run_labels_change. exact py_str_int_inj.
Qed.

Lemma frames_to_segments_labels_witness :
  let segs :=
    [ {| seg_start := 0; seg_end := 9 # 4; seg_label := "0" |};
      {| seg_start := 3 # 2; seg_end := 3; seg_label := "1" |} ] in
  map seg_label segs = map py_str (dedup_adjacent [0; 0; 1])
  /\ Sorted (fun a b => seg_label a <> seg_label b) segs.
Proof.
  apply (frames_to_segments_labels [0; 0; 1] [(0, 3 # 2); (3 # 4, 9 # 4); (3 # 2, 3)]%Q).
  vm_compute. reflexivity.
Defined.

Lemma last_cons_snd (t : Q * Q) (ts : list (Q * Q)) (d : Q * Q) (s' : Q) :
  snd (last (t :: ts) d) = snd (last ts (s', snd t)).
Proof.
  destruct ts as [|t' ts]; [reflexivity|].
  change (last (t :: t' :: ts) d) with (last (t' :: ts) d).
  f_equal. apply last_cons_default.
Qed.

Lemma merge_run_last_end {L : Type} `{PyValue L} rest : forall (cur : L) s e d,
  seg_end (last (merge_run cur s e rest) d)
  = py_round3 (snd (last (map snd rest) (s, e))).
Proof.
  induction rest as [|[l t] rest IH]; intros cur s e d; [reflexivity|].
  cbn [merge_run map snd]. destruct (py_eqb l cur).
  - rewrite IH. now rewrite (last_cons_snd t _ (s, e) s).
  - destruct (merge_run_head rest l (fst t) (snd t)) as (e' & tl & E).
    rewrite E.
    change (last (make_segment s e cur :: ?x :: tl) d) with (last (x :: tl) d).
    rewrite <- E, IH. now rewrite (last_cons_snd t _ (s, e) (fst t)).
Qed.

(** X11: on index-aligned input the first segment starts at the rounded start
    of the first time range and the last segment ends at the rounded end of
    the last time range. *)
Theorem frames_to_segments_span {L : Type} `{PyValue L}
    (labels : list L) (times : list (Q * Q)) (segs : list segment) d :
  length labels = length times ->
  frames_to_segments labels times = Ok segs ->
  seg_start (hd d segs) = py_round3 (fst (hd (0, 0)%Q times))
  /\ seg_end (last segs d) = py_round3 (snd (last times (0, 0)%Q)).
Proof.
  intros Hlen Hs. destruct labels as [|l0 labels]; [discriminate|].
  destruct times as [|t0 times]; [discriminate|].
  injection Hlen as Hlen. rewrite (frames_to_segments_run _ _ _ _ Hlen) in Hs.
  injection Hs as <-. split.
  - destruct (merge_run_head (combine labels times) l0 (fst t0) (snd t0))
      as (e' & tl & ->). reflexivity.
  - rewrite merge_run_last_end, (map_snd_combine_eq _ _ Hlen).
    now rewrite (last_cons_snd t0 times (0, 0)%Q (fst t0)).
Qed.

Lemma frames_to_segments_span_witness :
  let segs :=
    [ {| seg_start := 0; seg_end := 9 # 4; seg_label := "0" |};
      {| seg_start := 3 # 2; seg_end := 3; seg_label := "1" |} ] in
  let d := {| seg_start := 0; seg_end := 0; seg_label := "" |} in
  seg_start (hd d segs) = py_round3 (fst (hd (0, 0)%Q [(0, 3 # 2); (3 # 4, 9 # 4); (3 # 2, 3)]%Q))
  /\ seg_end (last segs d)
     = py_round3 (snd (last [(0, 3 # 2); (3 # 4, 9 # 4); (3 # 2, 3)]%Q (0, 0)%Q)).
Proof.
  apply (frames_to_segments_span [0; 0; 1] [(0, 3 # 2); (3 # 4, 9 # 4); (3 # 2, 3)]%Q).
  - reflexivity.
  - vm_compute. reflexivity.
Defined.

Lemma merge_run_app rest1 : forall (cur : Z) s e l t rest2,
  last (map fst rest1) cur <> l ->
  merge_run cur s e (rest1 ++ (l, t) :: rest2)
  = merge_run cur s e rest1 ++ merge_run l (fst t) (snd t) rest2.
Proof.
  induction rest1 as [|[l1 t1] rest1 IH]; intros cur s e l t rest2 Hne.
  - cbn [app merge_run py_eqb PyValue_int]. cbn in Hne.
    destruct (Z.eqb_spec l cur); [congruence|reflexivity].
  - cbn [app merge_run py_eqb PyValue_int map fst] in *.
    assert (Hl : last (map fst rest1) l1 <> l).
    { destruct rest1 as [|[l2 t2] rest1]; [exact Hne|]. cbn [map fst] in *.
      change (last (l1 :: l2 :: map fst rest1) cur)
        with (last (l2 :: map fst rest1) cur) in Hne.
      now rewrite (last_cons_default _ _ l1 cur). }
    destruct (Z.eqb_spec l1 cur) as [->|Hc].
    + now apply IH.
    + cbn [app]. f_equal. now apply IH.
Qed.

Lemma combine_app_eq {A B} (l1 l2 : list A) (k1 k2 : list B) :
  length l1 = length k1 ->
  combine (l1 ++ l2) (k1 ++ k2) = combine l1 k1 ++ combine l2 k2.
Proof.
  revert k1. induction l1 as [|a l1 IH]; intros [|b k1]; cbn;
    try discriminate; [reflexivity|].
  intros Hlen. f_equal. apply IH. now injection Hlen.
Qed.

(** X13: when the last label of one aligned input differs from the first
    label of the next, merging the concatenated input gives the segments of
    the first followed by the segments of the second. *)
Theorem frames_to_segments_app (labels1 labels2 : list Z)
    (times1 times2 : list (Q * Q)) :
  length labels1 = length times1 -> length labels2 = length times2 ->
  labels1 <> [] -> labels2 <> [] ->
  last labels1 0 <> hd 0 labels2 ->
  exists segs1 segs2,
    frames_to_segments labels1 times1 = Ok segs1
    /\ frames_to_segments labels2 times2 = Ok segs2
    /\ frames_to_segments (labels1 ++ labels2) (times1 ++ times2)
       = Ok (segs1 ++ segs2).
Proof.
  intros Hlen1 Hlen2 Hne1 Hne2 Hchange.
  destruct labels1 as [|a labels1]; [contradiction|].
  destruct labels2 as [|b labels2]; [contradiction|].
  destruct times1 as [|ta times1]; [discriminate|].
  destruct times2 as [|tb times2]; [discriminate|].
  injection Hlen1 as Hlen1. injection Hlen2 as Hlen2. cbn [hd] in Hchange.
  rewrite (frames_to_segments_run _ _ _ _ Hlen1),
    (frames_to_segments_run _ _ _ _ Hlen2).
  do 2 eexists. split; [reflexivity|]. split; [reflexivity|].
  cbn [app]. rewrite frames_to_segments_run
    by (rewrite !length_app; cbn [length]; lia).
  rewrite (combine_app_eq _ _ _ _ Hlen1). cbn [combine].
  f_equal. apply merge_run_app.
  rewrite (map_fst_combine_eq _ _ Hlen1).
  destruct labels1 as [|a1 labels1]; [exact Hchange|].
  change (last (a :: a1 :: labels1) 0) with (last (a1 :: labels1) 0) in Hchange.
  now rewrite (last_cons_default _ _ a 0).
Qed.

Lemma frames_to_segments_app_witness :
  exists segs1 segs2,
    frames_to_segments [0; 0] [(0, 3 # 2); (3 # 4, 9 # 4)]%Q = Ok segs1
    /\ frames_to_segments [1] [(3 # 2, 3)%Q] = Ok segs2
    /\ frames_to_segments ([0; 0] ++ [1])
         ([(0, 3 # 2); (3 # 4, 9 # 4)]%Q ++ [(3 # 2, 3)%Q])
       = Ok (segs1 ++ segs2).
Proof.
  apply (frames_to_segments_app [0; 0] [1]
           [(0, 3 # 2); (3 # 4, 9 # 4)]%Q [(3 # 2, 3)%Q]).
  - reflexivity.
  - reflexivity.
  - discriminate.
  - discriminate.
  - cbn. lia.
Defined.

(* ----------------------------------------------------------------- *)
(** *** [main] *)

Section MainRuns16k.
Context {R : Runtime}.

Lemma load_audio_16k (a : ndarray sample) :
  exists audio, load_audio_mono_16k (a, 16000) = Ok (audio, 16000)
                /\ length audio = n_samples a.
Proof.
  eexists. split; [reflexivity|]. destruct a; cbn; now rewrite ?length_map.
Qed.

Lemma frames_at_least_two (len : Z) :
  (2 <= length (starts_of len 24000 12000))%nat <-> 36000 <= len.
Proof.
  pose proof (starts_of_length_fits len 24000 12000 1 ltac:(lia)) as H.
  cbn -[starts_of] in H. split; intros; [apply H|apply H in H0]; lia.
Qed.

Lemma main_16k_cases (a : ndarray sample) (max_speakers : Z) :
  (forall k X, length (fit_predict k X) = length X) ->
  (Z.of_nat (n_samples a) < 36000 /\ main (a, 16000) max_speakers = Ok [])
  \/ (36000 <= Z.of_nat (n_samples a)
      /\ exists embeddings l0 labels s e ts,
           cluster_labels max_speakers embeddings = l0 :: labels
           /\ main (a, 16000) max_speakers
              = Ok (merge_run l0 s e (combine labels ts))).
Proof.
  intros Hfit. destruct (load_audio_16k a) as (audio & Hload & Hlen).
  pose proof (slice_frames_16k audio _ _ eq_refl eq_refl) as Hslice.
  rewrite Hlen in Hslice.
  set (starts := starts_of (Z.of_nat (n_samples a)) 24000 12000) in *.
  destruct (Z.lt_ge_cases (Z.of_nat (n_samples a)) 36000) as [Hshort|Hlong].
  - left. split; [exact Hshort|].
    rewrite (main_after_slicing _ _ _ _ _ _ Hload Hslice), length_map.
    destruct (Nat.ltb_spec (length starts) 2) as [|H2]; [reflexivity|].
    apply frames_at_least_two in H2. lia.
  - right. split; [exact Hlong|].
    assert (HN : (2 <= length (map (window audio 24000) starts))%nat).
    { rewrite length_map. now apply frames_at_least_two. }
    destruct (main_merge_run _ max_speakers _ _ _ _ Hfit Hload Hslice HN)
      as (l0 & labels & _ & Hlab & _ & Hmain).
    now repeat eexists; eauto.
Qed.

End MainRuns16k.

(** X14: with a clusterer that returns one label per embedding, [main]
    returns a segment list exactly when the sample rate is 16000: no
    [IndexError], [ZeroDivisionError] or other exception can come from the
    slicing or the merging. *)
Theorem main_succeeds_iff_16k {R : Runtime} (a : ndarray sample) (sr : Z)
    (max_speakers : Z) :
  (forall k X, length (fit_predict k X) = length X) ->
  ((exists segs, main (a, sr) max_speakers = Ok segs) <-> sr = 16000).
Proof.
  intros Hfit. split.
  - intros [segs Hs]. destruct (Z.eq_dec sr 16000) as [|Hne]; [assumption|].
    unfold main, load_audio_mono_16k in Hs.
    destruct (Z.eqb_spec sr 16000); [contradiction|discriminate].
  - intros ->. destruct (main_16k_cases a max_speakers Hfit)
      as [[_ ->]|(_ & X & l0 & labels & s & e & ts & _ & ->)];
      eexists; reflexivity.
Qed.

Lemma main_succeeds_iff_16k_witness :
  (exists segs, @main table_runtime (Array1 (tone 0 5), 16000) 6 = Ok segs)
  <-> 16000 = 16000.
Proof.
  apply (@main_succeeds_iff_16k table_runtime (Array1 (tone 0 5)) 16000 6).
  exact AgglomerativeFacts.fit_predict_length.
Defined.

(** X15: at 16 kHz, with a clusterer that returns one label per embedding,
    the segment list [main] writes is empty exactly when the file has fewer
    than 36000 sample frames (2.25 s, two frames). *)
Theorem main_empty_iff_short {R : Runtime} (a : ndarray sample)
    (max_speakers : Z) :
  (forall k X, length (fit_predict k X) = length X) ->
  (main (a, 16000) max_speakers = Ok [] <-> Z.of_nat (n_samples a) < 36000).
Proof.
  intros Hfit. destruct (main_16k_cases a max_speakers Hfit)
    as [[Hshort Hm]|(Hlong & X & l0 & labels & s & e & ts & _ & Hm)];
    rewrite Hm.
  - tauto.
  - split; [|lia]. intros [= Hnil].
    destruct (merge_run_head (combine labels ts) l0 s e) as (e' & tl & E).
    rewrite E in Hnil. discriminate.
Qed.

Lemma main_empty_iff_short_witness :
  @main table_runtime (Array1 (tone 0 5), 16000) 6 = Ok []
  <-> Z.of_nat (n_samples (Array1 (tone 0 5))) < 36000.
Proof.
  apply (@main_empty_iff_short table_runtime (Array1 (tone 0 5)) 6).
  exact AgglomerativeFacts.fit_predict_length.
Defined.

Lemma dedup_adjacent_incl (labels : list Z) :
  incl (dedup_adjacent labels) labels.
Proof.
  induction labels as [|a [|b tl] IH]; try (intros x Hx; exact Hx).
  cbn [dedup_adjacent]. destruct (b =? a).
  - intros x Hx. right. now apply IH.
  - intros x [<-|Hx]; [now left|right; now apply IH].
Qed.

Lemma cluster_labels_distinct_le {R : Runtime} (max_speakers : Z)
    (embeddings : list embedding) :
  (forall k X, 2 <= k <= Z.of_nat (length X) ->
               Forall (fun l => 0 <= l < k) (fit_predict k X)) ->
  1 <= max_speakers ->
  Z.of_nat (length (nodup Z.eq_dec (cluster_labels max_speakers embeddings)))
  <= max_speakers.
Proof.
  intros Hrange HK. unfold cluster_labels, n_clusters_of.
  set (N := Z.of_nat (length embeddings)).
  destruct (Z.ltb_spec (Z.min max_speakers N) 1) as [Hlt|Hge].
  - cbn [Z.eqb Pos.eqb]. destruct (length embeddings) as [|n]; [cbn; lia|].
    rewrite nodup_repeat_zero. cbn. lia.
  - destruct (Z.eqb_spec (Z.min max_speakers N) 1) as [H1|H1].
    + destruct (length embeddings) as [|n]; [cbn; lia|].
      rewrite nodup_repeat_zero. cbn. lia.
    + apply Z.le_trans with (Z.min max_speakers N); [|lia].
      apply labels_in_range_card; [lia|]. apply Hrange. fold N. lia.
Qed.

(** X16: with [max_speakers >= 1] and a clusterer whose labels lie in
    [0, n_clusters), the segments [main] writes carry at most [max_speakers]
    distinct labels. *)
Theorem main_labels_at_most_max_speakers {R : Runtime}
    (a : ndarray sample) (max_speakers : Z) (segs : list segment) :
  (forall k X, length (fit_predict k X) = length X) ->
  (forall k X, 2 <= k <= Z.of_nat (length X) ->
               Forall (fun l => 0 <= l < k) (fit_predict k X)) ->
  1 <= max_speakers ->
  main (a, 16000) max_speakers = Ok segs ->
  Z.of_nat (length (nodup string_dec (map seg_label segs))) <= max_speakers.
Proof.
  intros Hfit Hrange HK Hmain.
  destruct (main_16k_cases a max_speakers Hfit)
    as [[_ Hm]|(_ & X & l0 & labels & s & e & ts & Hlab & Hm)];
    rewrite Hm in Hmain; injection Hmain as <-; [cbn; lia|].
  apply Z.le_trans
    with (Z.of_nat (length (nodup Z.eq_dec (cluster_labels max_speakers X))));
    [|now apply cluster_labels_distinct_le].
  apply inj_le.
  apply Nat.le_trans
    with (length (map (@py_str Z PyValue_int)
                      (nodup Z.eq_dec (cluster_labels max_speakers X))));
    [|rewrite length_map; lia].
  apply NoDup_incl_length; [apply NoDup_nodup|].
  intros x Hx. apply nodup_In in Hx. rewrite merge_run_labels in Hx.
  apply in_map_iff in Hx as (l & <- & Hl). apply in_map, nodup_In.
  apply dedup_adjacent_incl in Hl. rewrite Hlab.
  destruct Hl as [<-|Hl]; [now left|right].
  apply in_map_iff in Hl as ([l' t] & <- & Hin). now apply in_combine_l in Hin.
Qed.

Lemma main_labels_at_most_max_speakers_witness :
  Z.of_nat (length (nodup string_dec
              (map seg_label
                 [ {| seg_start := 0; seg_end := 3 # 2; seg_label := "0" |};
                   {| seg_start := 3 # 4; seg_end := 9 # 4;
                      seg_label := "1" |} ])))
  <= 6.
Proof.
  apply (@main_labels_at_most_max_speakers table_runtime
           (Array1 (tone 0 36000)) 6).
  - exact AgglomerativeFacts.fit_predict_length.
  - exact AgglomerativeFacts.fit_predict_range.
  - lia.
  - vm_compute. reflexivity.
Defined.

Lemma n_clusters_of_floor (K : Z) (n : nat) :
  K <= 1 -> n_clusters_of K n = 1.
Proof.
  intros HK. unfold n_clusters_of.
  destruct (Z.ltb_spec (Z.min K (Z.of_nat n)) 1); lia.
Qed.

Lemma main_cluster_count {R : Runtime} file (K K' : Z) :
  (forall n, n_clusters_of K n = n_clusters_of K' n) ->
  main file K = main file K'.
Proof.
  intros Hn. unfold main, cluster_labels.
  destruct (load_audio_mono_16k file) as [[audio sr]|e]; [|reflexivity].
  cbn [Py.bind]. destruct (slice_frames audio sr frame_sec hop_sec)
    as [[frames times]|e]; [|reflexivity].
  cbn [Py.bind]. now rewrite Hn.
Qed.

(** X17: [main] reads [max_speakers] only through the cluster count: any
    value of 1 or less gives the output of 1, and any value of at least the
    number of frames gives the output of that number. *)
Theorem main_max_speakers_clamped {R : Runtime} file (K : Z) :
  (K <= 1 -> main file K = main file 1)
  /\ (forall audio sr frames times,
        load_audio_mono_16k file = Ok (audio, sr) ->
        slice_frames audio sr frame_sec hop_sec = Ok (frames, times) ->
        Z.of_nat (length frames) <= K ->
        main file K = main file (Z.of_nat (length frames))).
Proof.
  split.
  - intros HK. apply main_cluster_count. intros n.
    now rewrite !n_clusters_of_floor by lia.
  - intros audio sr frames times Hload Hslice HK.
    rewrite !(main_after_slicing _ _ _ _ _ _ Hload Hslice).
    destruct (length frames <? 2)%nat; [reflexivity|].
    unfold cluster_labels, n_clusters_of. rewrite length_map.
    now rewrite (Z.min_r K) by lia; rewrite Z.min_id.
Qed.

Lemma main_max_speakers_clamped_witness :
  @main table_runtime (Array1 (tone 0 36000), 16000) 0
  = @main table_runtime (Array1 (tone 0 36000), 16000) 1.
Proof.
  apply (proj1 (@main_max_speakers_clamped table_runtime
                  (Array1 (tone 0 36000), 16000) 0)).
  lia.
Defined.
